(** * wagtail/models/sites.py: site resolution, root-path cache, default-site
      validation and the pluggable site-user model

    A shallow embedding of the module.  The database table of [Site] rows,
    Django's cache and the clock are an explicit [World] that every
    operation threads; Python exceptions are the [Raise] results of a small
    state-and-error monad.  Django's own machinery (ORDER BY, the cache
    backend, [apps.get_model]) is modelled by its documented behaviour. *)

From Stdlib Require Import ZArith String Ascii DecimalString DecimalPos DecimalZ.
From stdpp Require Import gmap strings list sorting.

Open Scope Z_scope.
Open Scope string_scope.

(** ** Exceptions and the state-and-error monad *)

Inductive Exception :=
  | DoesNotExist
  | MultipleObjectsReturned
  | ValidationError (field : string) (messages : list string)
  | ImproperlyConfigured (message : string)
  | ValueError
  | LookupError
  | AttributeError
  | IndexError
  | OverflowError.

Inductive result (A : Type) :=
  | Ok (a : A)
  | Raise (e : Exception).
Arguments Ok {A} a.
Arguments Raise {A} e.

(** ** Data model *)

(** A [Page] row as far as this module reads it: [url_path] and the
    [language_code] of its locale. *)
Record Page := {
  page_id : Z;
  url_path : string;
  language_code : string
}.

(** A [Site] instance.  [pk] is [None] for an instance that was never
    saved; rows read from the table carry [Some] id.  [root_page] is the
    joined row ([select_related]). *)
Record Site := {
  pk : option Z;
  hostname : string;
  port : Z;
  site_name : string;
  root_page : Page;
  is_default_site : bool
}.

#[global] Instance Page_eq_dec : EqDecision Page.
Proof. solve_decision. Defined.
#[global] Instance Site_eq_dec : EqDecision Site.
Proof. solve_decision. Defined.

(** [SiteRootPath = namedtuple("SiteRootPath", "site_id root_path root_url language_code")] *)
Record SiteRootPath := {
  site_id : option Z;
  root_path : string;
  root_url_of : string;
  language_code_of : string
}.

(** What the cache may hold under the root-path key: records written by
    this version (4 fields) or by Wagtail 2.10 and older (3 fields, no
    language code). *)
Inductive site_record :=
  | Current (r : SiteRootPath)
  | Legacy (legacy_site_id : option Z) (legacy_root_path legacy_root_url : string).

Definition len (r : site_record) : Z :=
  match r with
  | Current _ => 4
  | Legacy _ _ _ => 3
  end.

(** A model class of the app registry, as [apps.get_model] returns it. *)
Record ModelClass := {
  app_label : string;
  model_name : string
}.

(** The world: the rows of the site table in storage order, the cache
    (key to value and expiry time), the clock in seconds, the number of
    SELECTs sent to the site table so far, and this module's global
    [SiteUser] (line 19: [SiteUser = None]). *)
Record World := {
  site_table : list Site;
  cache : gmap string (list site_record * Z);
  now : Z;
  site_queries : nat;
  SiteUser : option ModelClass
}.

Definition with_site_table (rows : list Site) (w : World) : World :=
  {| site_table := rows; cache := cache w; now := now w;
     site_queries := site_queries w; SiteUser := SiteUser w |}.
Definition with_cache (c : gmap string (list site_record * Z)) (w : World) : World :=
  {| site_table := site_table w; cache := c; now := now w;
     site_queries := site_queries w; SiteUser := SiteUser w |}.
Definition with_site_queries (n : nat) (w : World) : World :=
  {| site_table := site_table w; cache := cache w; now := now w;
     site_queries := n; SiteUser := SiteUser w |}.
Definition with_SiteUser (m : option ModelClass) (w : World) : World :=
  {| site_table := site_table w; cache := cache w; now := now w;
     site_queries := site_queries w; SiteUser := m |}.

Definition M (A : Type) : Type := World -> result A * World.

Definition ret {A} (a : A) : M A := fun w => (Ok a, w).
Definition raise {A} (e : Exception) : M A := fun w => (Raise e, w).
Definition bind {A B} (m : M A) (k : A -> M B) : M B :=
  fun w => match m w with
           | (Ok a, w') => k a w'
           | (Raise e, w') => (Raise e, w')
           end.
(** [try: m  except <class>: handler]: only the exceptions that [catches]
    accepts reach the handler, the others propagate. *)
Definition try_except {A} (m : M A) (catches : Exception -> bool) (handler : M A) : M A :=
  fun w => match m w with
           | (Raise e, w') => if catches e then handler w' else (Raise e, w')
           | r => r
           end.
Definition lift {A} (r : result A) : M A := fun w => (r, w).

Notation "x <- m ;; k" := (bind m (fun x => k))
  (at level 100, m at next level, right associativity).

(** One query against the site table: the rows are read and the query is
    counted. *)
Definition Site_objects {A} (q : list Site -> A) : M A :=
  fun w => (Ok (q (site_table w)), with_site_queries (S (site_queries w)) w).

(** ** get_site_for_hostname *)

Definition MATCH_HOSTNAME_PORT : Z := 0.
Definition MATCH_HOSTNAME_DEFAULT : Z := 1.
Definition MATCH_DEFAULT : Z := 2.
Definition MATCH_HOSTNAME : Z := 3.

(** The [Case(When ..., When ..., When ..., default=...)] annotation.  The
    database's equality on the [hostname] column is taken as equality of
    strings.  [req_port] is the number the database compares the [port]
    column with, that is, what the caller passed once the query has
    accepted it; a port the query refuses is the business of [port_value]
    in [_find_for_request]. *)
Definition match_case (req_hostname : string) (req_port : Z) (s : Site) : Z :=
  if decide (hostname s = req_hostname /\ port s = req_port) then MATCH_HOSTNAME_PORT
  else if decide (hostname s = req_hostname /\ is_default_site s = true) then MATCH_HOSTNAME_DEFAULT
  else if decide (is_default_site s = true) then MATCH_DEFAULT
  else MATCH_HOSTNAME.

(** A row of the annotated queryset. *)
Record AnnotatedSite := {
  site : Site;
  site_match : Z
}.

Definition annotate (req_hostname : string) (req_port : Z) (s : Site) : AnnotatedSite :=
  {| site := s; site_match := match_case req_hostname req_port s |}.

Definition match_le (a b : AnnotatedSite) : Prop := site_match a <= site_match b.

#[global] Instance match_le_dec : RelDecision match_le.
Proof. intros a b. unfold match_le. apply _. Defined.

(** [.annotate(match=...).filter(Q(hostname=hostname) | Q(is_default_site=True)).order_by("match")].
    Rows of equal [match] come in the order the database likes; here it is
    the order a merge sort of the stored rows gives them.  The properties
    below rest on the result being sorted and holding the same rows only
    (see [pick_site_any_tie_order]). *)
Definition annotated_sites (req_hostname : string) (req_port : Z) (rows : list Site)
  : list AnnotatedSite :=
  merge_sort match_le
    (annotate req_hostname req_port
       <$> filter (fun s => hostname s = req_hostname \/ is_default_site s = true) rows).

(** The part of [get_site_for_hostname] after the query. *)
Definition pick_site (sites : list AnnotatedSite) : result Site :=
  match sites with
  | [] => Raise DoesNotExist
  | first :: _ =>
      if bool_decide (length sites = 1%nat)
         || bool_decide (site_match first ∈ [MATCH_HOSTNAME_PORT; MATCH_HOSTNAME_DEFAULT])
      then Ok (site first)
      else if bool_decide (site_match first = MATCH_DEFAULT)
      then match sites !! (if bool_decide (length sites = 2%nat) then 1%nat else 0%nat) with
           | Some a => Ok (site a)
           | None => Raise IndexError
           end
      else Raise DoesNotExist
  end.

Definition get_site_for_hostname (req_hostname : string) (req_port : Z) : M Site :=
  sites <- Site_objects (annotated_sites req_hostname req_port) ;;
  lift (pick_site sites).

(** When the resolver finds nothing: no default site, and either no site
    of that hostname or several of them with none on the requested port. *)
Definition unresolvable (h : string) (p : Z) (rows : list Site) : Prop :=
  (forall s, s ∈ rows -> is_default_site s = false)
  /\ (filter (fun s => hostname s = h) rows = []
      \/ ((2 <= length (filter (fun s => hostname s = h) rows))%nat
          /\ forall s, s ∈ rows -> ~ (hostname s = h /\ port s = p))).

(** ** Requests *)

(** A row of the concrete site-user table and the request's user, as far
    as [AbstractSiteUser.find_for_request] reads them. *)
Record SiteUserRow := {
  su_site_id : Z;
  su_user_id : Z;
  su_is_active : bool;
  su_is_superuser : bool
}.

(** [site_user] is a dynamic attribute: [None] here when it is not set,
    [Some v] when it holds [v], which may be Python's [None]. *)
Record User := {
  user_id : Z;
  user_siteusers : list SiteUserRow;
  site_user : option (option SiteUserRow)
}.

(** An [HttpRequest]: what [get_host()] answers (it may raise), the text
    [get_port()] returns, the dynamic attribute [_wagtail_site] ([None]
    here when the attribute is not set, [Some v] when it holds [v], itself
    possibly Python's [None]), the session and the user. *)
Record HttpRequest := {
  get_host : result string;
  get_port : string;
  _wagtail_site : option (option Site);
  session : gmap string Z;
  user : User
}.

Definition setattr_wagtail_site (request : HttpRequest) (v : option Site) : HttpRequest :=
  {| get_host := get_host request; get_port := get_port request;
     _wagtail_site := Some v; session := session request; user := user request |}.

Definition session_set (request : HttpRequest) (key : string) (v : Z) : HttpRequest :=
  {| get_host := get_host request; get_port := get_port request;
     _wagtail_site := _wagtail_site request;
     session := <[key := v]> (session request); user := user request |}.

(** ** Site.root_url *)

(** ["%d" % n] *)
Definition format_d (n : Z) : string := NilZero.string_of_int (Z.to_int n).

Definition root_url (self : Site) : string :=
  if decide (port self = 80) then "http://" ++ hostname self
  else if decide (port self = 443) then "https://" ++ hostname self
  else "http://" ++ hostname self ++ ":" ++ format_d (port self).

(** ** The cache backend *)

Definition cache_get (key : string) : M (option (list site_record)) :=
  fun w => (Ok match cache w !! key with
               | Some (v, expiry) => if decide (now w < expiry) then Some v else None
               | None => None
               end, w).

Definition cache_set (key : string) (v : list site_record) (timeout : Z) : M unit :=
  fun w => (Ok tt, with_cache (<[key := (v, now w + timeout)]> (cache w)) w).

Definition cache_delete (key : string) : M unit :=
  fun w => (Ok tt, with_cache (delete key (cache w)) w).

(** The clock moving on by [dt] seconds. *)
Definition advance (dt : Z) (w : World) : World :=
  {| site_table := site_table w; cache := cache w; now := now w + dt;
     site_queries := site_queries w; SiteUser := SiteUser w |}.

(** ** Settings and the app registry *)

(** The two settings the module reads; [None] is a setting that is not
    present at all. *)
Record Settings := {
  WAGTAIL_I18N_ENABLED : option bool;
  SITE_USER_MODEL : option string
}.

(** [s.split(sep)] for a one-character separator. *)
Fixpoint split (sep : ascii) (s : string) : list string :=
  match s with
  | EmptyString => [EmptyString]
  | String c rest =>
      if decide (c = sep) then EmptyString :: split sep rest
      else match split sep rest with
           | [] => [String c EmptyString]
           | piece :: pieces => String c piece :: pieces
           end
  end.

(** The ordering [order_by("-root_page__url_path", "-is_default_site", "hostname")]:
    [a] may stand before [b].  Strings compare character by character, as
    under a binary collation. *)
Definition root_paths_order (a b : Site) : bool :=
  match String.compare (url_path (root_page b)) (url_path (root_page a)) with
  | Lt => true
  | Gt => false
  | Eq =>
      match is_default_site a, is_default_site b with
      | true, false => true
      | false, true => false
      | _, _ => String.leb (hostname a) (hostname b)
      end
  end.

Definition root_paths_before (a b : Site) : Prop := root_paths_order a b = true.

#[global] Instance root_paths_before_dec : RelDecision root_paths_before.
Proof. intros a b. unfold root_paths_before. apply _. Defined.

(** [Site.objects.get(...)]: the one row that satisfies [P]. *)
Definition objects_get (P : Site -> Prop) `{forall s, Decision (P s)} (rows : list Site) : result Site :=
  match filter P rows with
  | [] => Raise DoesNotExist
  | [s] => Ok s
  | _ :: _ :: _ => Raise MultipleObjectsReturned
  end.

Definition is_DoesNotExist (e : Exception) : bool :=
  match e with DoesNotExist => true | _ => false end.

(** ** Natural keys and display names *)

(** [Site.natural_key] *)
Definition natural_key (self : Site) : string * Z := (hostname self, port self).

(** [SiteManager.get_by_natural_key]: [self.get(hostname=hostname, port=port)] *)
Definition get_by_natural_key (req_hostname : string) (req_port : Z) : M Site :=
  found <- Site_objects
             (objects_get (fun s => hostname s = req_hostname /\ port s = req_port)) ;;
  lift found.

(** [Site.__str__]; [_("default")] is taken in the source language. *)
Definition Site__str__ (self : Site) : string :=
  let default_suffix := " [" ++ "default" ++ "]" in
  if bool_decide (site_name self <> "")
  then site_name self ++ (if is_default_site self then default_suffix else "")
  else hostname self
       ++ (if decide (port self = 80) then "" else ":" ++ format_d (port self))
       ++ (if is_default_site self then default_suffix else "").

(** A [SiteGroup] row: its name, the permissions granted to it and the
    key of its site. *)
Record SiteGroup := {
  name : string;
  permissions : list string;
  group_site_id : Z
}.

(** [SiteGroup.natural_key] *)
Definition SiteGroup_natural_key (self : SiteGroup) : string * Z :=
  (name self, group_site_id self).

(** [SiteGroup.__str__] *)
Definition SiteGroup__str__ (self : SiteGroup) : string := name self.

(** [SiteGroupManager.get_by_natural_key]: [self.get(name=name, site_id=site_id)]
    over the rows of the group table. *)
Definition SiteGroup_get_by_natural_key (rows : list SiteGroup)
           (req_name : string) (req_site_id : Z) : result SiteGroup :=
  match filter (fun g => name g = req_name /\ group_site_id g = req_site_id) rows with
  | [] => Raise DoesNotExist
  | [g] => Ok g
  | _ :: _ :: _ => Raise MultipleObjectsReturned
  end.

(** ** Permissions of a site user *)

(** What a caller may pass as [perm_list]: a string, something that cannot
    be iterated, or an iterable of permission names. *)
Inductive perm_list_value :=
  | PermString (s : string)
  | NotIterable
  | Permissions (perms : list string).

(** ** Example data *)

Definition home_page : Page :=
  {| page_id := 2; url_path := "/home/"; language_code := "en" |}.

Definition example_site (k : Z) (h : string) (p : Z) (is_default : bool) : Site :=
  {| pk := Some k; hostname := h; port := p; site_name := "";
     root_page := home_page; is_default_site := is_default |}.

(** A world at time 0 with an empty cache. *)
Definition world_of (rows : list Site) : World :=
  {| site_table := rows; cache := ∅; now := 0; site_queries := 0; SiteUser := None |}.

(** A default site of another hostname and one site of ["example.com"]. *)
Definition default_and_one_world : World :=
  world_of [example_site 1 "other.com" 80 true; example_site 2 "example.com" 8000 false].

(** Two sites of ["example.com"] on ports 8000 and 8001, no default site. *)
Definition two_ports_world : World :=
  world_of [example_site 1 "example.com" 8000 false; example_site 2 "example.com" 8001 false].

(** Two default sites of other hostnames and one site of ["example.com"]. *)
Definition two_defaults_world : World :=
  world_of [example_site 1 "other.com" 80 true; example_site 2 "else.com" 80 true;
            example_site 3 "example.com" 8000 false].

(** A cache that still holds a list written by Wagtail 2.10. *)
Definition legacy_cache_world : World :=
  {| site_table := [example_site 1 "example.com" 80 true];
     cache := {[ "wagtail_site_root_paths" :=
                   ([Legacy (Some 1) "/home/" "http://example.com"], 1800) ]};
     now := 0; site_queries := 0; SiteUser := None |}.

(** Three sites: two on the root ["/home/"], one of them the default
    site, and a blog on the deeper root ["/home/blog/"]. *)
Definition root_paths_world : World :=
  world_of
    [ {| pk := Some 1; hostname := "a.example.com"; port := 8000; site_name := "";
         root_page := home_page; is_default_site := false |};
      {| pk := Some 2; hostname := "example.com"; port := 80; site_name := "";
         root_page := home_page; is_default_site := true |};
      {| pk := Some 3; hostname := "blog.example.com"; port := 443; site_name := "Blog";
         root_page := {| page_id := 5; url_path := "/home/blog/"; language_code := "en" |};
         is_default_site := false |} ].




(** A query that reads the port as a decimal number and refuses what does
    not fit 64 bits. *)
Definition example_port_value (text : string) : result Z :=
  match NilZero.int_of_string text with
  | Some d =>
      if decide (- 2 ^ 63 <= Z.of_int d < 2 ^ 63) then Ok (Z.of_int d)
      else Raise OverflowError
  | None => Raise ValueError
  end.

(** A request whose port no database column holds. *)
Definition huge_port_request : HttpRequest :=
  {| get_host := Ok "example.com"; get_port := "99999999999999999999";
     _wagtail_site := None; session := ∅;
     user := {| user_id := 1; user_siteusers := []; site_user := None |} |}.

Definition no_settings : Settings :=
  {| WAGTAIL_I18N_ENABLED := None; SITE_USER_MODEL := None |}.

Definition anonymous_request : HttpRequest :=
  {| get_host := Ok "example.com"; get_port := "80"; _wagtail_site := None;
     session := ∅;
     user := {| user_id := 1; user_siteusers := []; site_user := None |} |}.

(** The default site on port 80 and a second site of its hostname on
    port 8000. *)
Definition default_with_sibling_world : World :=
  world_of [example_site 1 "example.com" 80 true; example_site 2 "example.com" 8000 false].

(** A default site of another hostname and two sites of ["example.com"]. *)
Definition default_and_two_world : World :=
  world_of [example_site 1 "other.com" 80 true; example_site 2 "example.com" 8000 false;
            example_site 3 "example.com" 8001 false].

(** Two groups of site 1 and one of site 2. *)
Definition example_groups : list SiteGroup :=
  [ {| name := "editors"; permissions := ["wagtailcore.change_page"]; group_site_id := 1 |};
    {| name := "moderators"; permissions := []; group_site_id := 1 |};
    {| name := "editors"; permissions := []; group_site_id := 2 |} ].

Definition accounts_SiteUser : ModelClass :=
  {| app_label := "accounts"; model_name := "siteuser" |}.

(** A user who is a member of site 1 and whose session names site 7. *)
Definition member_row : SiteUserRow :=
  {| su_site_id := 1; su_user_id := 1; su_is_active := true; su_is_superuser := false |}.

Definition stray_session_request : HttpRequest :=
  {| get_host := Ok "example.com"; get_port := "80"; _wagtail_site := None;
     session := {[ "site_id" := 7 ]};
     user := {| user_id := 1; user_siteusers := [member_row]; site_user := None |} |}.

Section Sites.

Set Default Proof Using "Type".

(** Django's [split_domain_port], the inherited [Model.clean_fields], the
    app registry behind [apps.get_model] and the rows of a site-user
    model are Django's; [get_translations(inclusive=True)] of a page and
    [set_current_session_project] are defined in modules of the
    repository other than this one.  [siteuser_objects] is what
    [SiteUser.objects] holds under the settings in force; the
    [AttributeError] that the manager of a swappable model raises once the
    setting names another model is not modelled. *)
Variable split_domain_port : string -> string * string.
(** What the query makes of the port it is given as text: the number to
    compare the column with, or the exception it raises ([ValueError] for
    text that is no number, [OverflowError] or the like for a number the
    database refuses). *)
Variable port_value : string -> result Z.
Variable super_clean_fields : Site -> option (list string) -> result unit.
Variable get_translations : Page -> list Page.
Variable settings : Settings.
Variable registry : string -> string -> option ModelClass.
Variable siteuser_objects : ModelClass -> list SiteUserRow.
Variable set_current_session_project : HttpRequest -> SiteUserRow -> HttpRequest.

(** *** Site.find_for_request *)

Definition _find_for_request (request : HttpRequest) : M (option Site) :=
  host <- lift (get_host request) ;;
  let hostname := (split_domain_port host).1 in
  let port := get_port request in
  try_except
    (number <- lift (port_value port) ;;
     site <- get_site_for_hostname hostname number ;;
     ret (Some site))
    is_DoesNotExist
    (ret None).

(** Returns the site and the request object as the call leaves it. *)
Definition find_for_request (request : option HttpRequest)
  : M (option Site * option HttpRequest) :=
  match request with
  | None => ret (None, None)
  | Some request =>
      match _wagtail_site request with
      | None =>
          site <- _find_for_request request ;;
          ret (site, Some (setattr_wagtail_site request site))
      | Some cached => ret (cached, Some request)
      end
  end.

(** *** Site.clean_fields *)

(** The message of the validation error; [gettext_lazy] is taken in the
    source language. *)
Definition already_default_message (default_hostname : string) : string :=
  default_hostname
  ++ " is already configured as the default site."
  ++ " You must unset that before you can save this site as default.".

Definition clean_fields (self : Site) (exclude : option (list string)) : M unit :=
  _ <- lift (super_clean_fields self exclude) ;;
  fun w =>
    match (found <- Site_objects (objects_get (fun s => is_default_site s = true)) ;;
           lift found) w with
    | (Raise DoesNotExist, w') => (Ok tt, w')
    | (Raise e, w') => (Raise e, w')
    | (Ok default, w') =>
        if is_default_site self && bool_decide (pk self <> pk default)
        then (Raise (ValidationError "is_default_site"
                       [already_default_message (hostname default)]), w')
        else (Ok tt, w')
    end.

(** *** Site.get_site_root_paths *)

Definition i18n_enabled : bool := default false (WAGTAIL_I18N_ENABLED settings).

(** [SiteRootPath(site.id, root_page.url_path, site.root_url, root_page.locale.language_code)] *)
Definition make_SiteRootPath (s : Site) (page : Page) : SiteRootPath :=
  {| site_id := pk s; root_path := url_path page; root_url_of := root_url s;
     language_code_of := language_code page |}.

(** The body of the [for site in ...] loop: what one site adds to [result]. *)
Definition site_root_paths (s : Site) : list SiteRootPath :=
  if i18n_enabled
  then make_SiteRootPath s <$> get_translations (root_page s)
  else [make_SiteRootPath s (root_page s)].


(** The rows in the order of the query.  Rows that agree on all three
    keys come in the order the database likes; here it is the order a merge
    sort of the stored rows gives them. *)
Definition ordered_sites (rows : list Site) : list Site :=
  merge_sort root_paths_before rows.

Definition compute_root_paths (rows : list Site) : list site_record :=
  foldl (fun result s => (result ++ (Current <$> site_root_paths s))%list) [] (ordered_sites rows).

Definition has_legacy_record (cached : list site_record) : bool :=
  existsb (fun site_record => bool_decide (len site_record = 3)) cached.

(** The body of the [if]: the loop over the sites, then [cache.set]. *)
Definition recompute_root_paths : M (list site_record) :=
  result <- Site_objects compute_root_paths ;;
  _ <- cache_set "wagtail_site_root_paths" result 3600 ;;
  ret result.

Definition get_site_root_paths : M (list site_record) :=
  result <- cache_get "wagtail_site_root_paths" ;;
  match result with
  | None => recompute_root_paths
  | Some cached =>
      if has_legacy_record cached then recompute_root_paths else ret cached
  end.

(** What a call that recomputes does: one query, the fresh list stored
    for an hour, the fresh list returned. *)
Definition recomputed (w : World) : result (list site_record) * World :=
  (Ok (compute_root_paths (site_table w)),
   with_cache (<["wagtail_site_root_paths" :=
                   (compute_root_paths (site_table w), now w + 3600)]> (cache w))
     (with_site_queries (S (site_queries w)) w)).

(** The cache agrees with the site table: what it answers under the key,
    if anything, is of the old shape or is the list computed from the
    table as it is now. *)
Definition cache_coherent (w : World) : Prop :=
  forall cached,
    (cache_get "wagtail_site_root_paths" w).1 = Ok (Some cached) ->
    has_legacy_record cached = true \/ cached = compute_root_paths (site_table w).

(** *** get_site_user_model *)

(** [apps.get_model("app_label.model_name", require_ready=False)] with
    the registry loaded. *)
Definition apps_get_model (name : string) : result ModelClass :=
  match split "." name with
  | [label; model] =>
      match registry label model with
      | Some m => Ok m
      | None => Raise LookupError
      end
  | _ => Raise ValueError
  end.

Definition get_site_user_model : result ModelClass :=
  match SITE_USER_MODEL settings with
  | None =>
      Raise (ImproperlyConfigured
        "Please configure settings.SITE_USER_MODEL             that should subclass the AbstractSiteUser")
  | Some name =>
      match apps_get_model name with
      | Ok m => Ok m
      | Raise ValueError =>
          Raise (ImproperlyConfigured "settings must be of the form 'app_label.model_name'")
      | Raise LookupError =>
          Raise (ImproperlyConfigured
            ("settings refers to model '" ++ name ++ "' that has not been installed"))
      | Raise e => Raise e
      end
  end.

(** What importing the module leaves in the global: line 19. *)
Definition module_init : M unit :=
  fun w => (Ok tt, with_SiteUser None w).

(** *** AbstractSiteUser.find_for_request *)

(** [SiteUser = SiteUser or get_site_user_model()] *)
Definition resolve_SiteUser : M ModelClass :=
  fun w =>
    match SiteUser w with
    | Some m => (Ok m, w)
    | None =>
        match get_site_user_model with
        | Ok m => (Ok m, with_SiteUser (Some m) w)
        | Raise e => (Raise e, w)
        end
    end.

Definition AbstractSiteUser_find_for_request (request : HttpRequest)
  : M (option SiteUserRow * HttpRequest) :=
  model <- resolve_SiteUser ;;
  let last_site :=
    match last (user_siteusers (user request)) with
    | Some row => ret (su_site_id row, session_set request "site_id" (su_site_id row))
    | None => raise AttributeError
    end in
  chosen <-
    match session request !! "site_id" with
    | Some v => if decide (v = 0) then last_site else ret (v, request)
    | None => last_site
    end ;;
  let '(site_id, request) := chosen in
  row <-
    match filter (fun r => su_site_id r = site_id /\ su_user_id r = user_id (user request))
                 (siteuser_objects model) with
    | [] => raise DoesNotExist
    | [row] => ret row
    | _ :: _ :: _ => raise MultipleObjectsReturned
    end ;;
  let request :=
    match default None (site_user (user request)) with
    | None => set_current_session_project request row
    | Some current =>
        if decide (su_site_id current <> site_id)
        then set_current_session_project request row
        else request
    end in
  match site_user (user request) with
  | Some current => ret (current, request)
  | None => raise AttributeError
  end.

(** *** Saving and deleting sites *)

(** Modelled from the spec: the handler of Django's [post_save] signal for
    [Site] rows, which [sites.py] itself does not define: "any
    create/update/delete of a tenant record must evict this cache entry
    immediately". *)
Definition post_save_site_signal_handler : M unit :=
  cache_delete "wagtail_site_root_paths".

(** Modelled from the spec: the handler of [post_delete] for [Site] rows,
    missing from [sites.py] like [post_save_site_signal_handler]. *)
Definition post_delete_site_signal_handler : M unit :=
  cache_delete "wagtail_site_root_paths".

Definition next_pk (rows : list Site) : Z :=
  1 + foldr (fun s acc => Z.max (default 0 (pk s)) acc) 0 rows.

Definition with_pk (k : Z) (s : Site) : Site :=
  {| pk := Some k; hostname := hostname s; port := port s; site_name := site_name s;
     root_page := root_page s; is_default_site := is_default_site s |}.

(** Modelled from the spec: [save()] of a [Site], which the class inherits
    and [sites.py] does not override: the row is inserted (with a new key
    when the instance has none) or replaces the row of the same key, then
    the post-save handler runs.  Rejections by the database are left out. *)
Definition save (self : Site) : M Site :=
  fun w =>
    let rows := site_table w in
    let '(saved, rows') :=
      match pk self with
      | None => let s := with_pk (next_pk rows) self in (s, (rows ++ [s])%list)
      | Some k =>
          if bool_decide (Exists (fun r => pk r = Some k) rows)
          then (self, (fun r => if decide (pk r = Some k) then self else r) <$> rows)
          else (self, (rows ++ [self])%list)
      end in
    (_ <- post_save_site_signal_handler ;; ret saved) (with_site_table rows' w).

(** Modelled from the spec: [delete()] of a [Site], inherited as well: the
    row of that key goes, then the post-delete handler runs. *)
Definition delete_site (self : Site) : M unit :=
  fun w =>
    post_delete_site_signal_handler
      (with_site_table (filter (fun r => pk r <> pk self) (site_table w)) w).

(** A change of a site row: [Save] creates the row (an instance without
    a key, or with a key that no row has) or updates it; [Delete]
    removes it. *)
Inductive Mutation :=
  | Save (s : Site)
  | Delete (s : Site).

Definition mutate (m : Mutation) : M unit :=
  match m with
  | Save s => _ <- save s ;; ret tt
  | Delete s => delete_site s
  end.

(** [tauto] and [intuition] read every variable of the section as a
    hypothesis; these leave the variables out. *)
Ltac clear_variables :=
  clear split_domain_port port_value super_clean_fields get_translations settings
        registry siteuser_objects set_current_session_project.
Ltac logic := clear_variables; tauto.
Ltac logic_with tac := clear_variables; intuition tac.

(** ** Properties of the resolver *)

#[local] Instance match_le_trans : Transitive match_le.
Proof. intros a b c. unfold match_le. lia. Qed.

#[local] Instance match_le_total : Total match_le.
Proof. intros a b. unfold match_le. lia. Qed.

Lemma get_site_for_hostname_result (h : string) (p : Z) (w : World) :
  (get_site_for_hostname h p w).1 = pick_site (annotated_sites h p (site_table w)).
Proof.
  unfold get_site_for_hostname, bind, Site_objects, lift. reflexivity.
Qed.

Lemma get_site_for_hostname_world (h : string) (p : Z) (w : World) :
  (get_site_for_hostname h p w).2 = with_site_queries (S (site_queries w)) w.
Proof. reflexivity. Qed.

Lemma annotated_sites_perm (h : string) (p : Z) (rows : list Site) :
  annotated_sites h p rows
    ≡ₚ annotate h p <$> filter (fun s => hostname s = h \/ is_default_site s = true) rows.
Proof. apply merge_sort_Permutation. Qed.

Lemma annotated_sites_sorted (h : string) (p : Z) (rows : list Site) :
  StronglySorted match_le (annotated_sites h p rows).
Proof. apply StronglySorted_merge_sort; apply _. Qed.

Lemma elem_of_annotated_sites (h : string) (p : Z) (rows : list Site) (a : AnnotatedSite) :
  a ∈ annotated_sites h p rows <->
  exists s, a = annotate h p s /\ s ∈ rows /\ (hostname s = h \/ is_default_site s = true).
Proof.
  rewrite annotated_sites_perm, list_elem_of_fmap.
  split; intros (s & -> & Hs); exists s; split; try done.
  - apply list_elem_of_filter in Hs. logic.
  - apply list_elem_of_filter. logic.
Qed.

Lemma match_case_range (h : string) (p : Z) (s : Site) :
  match_case h p s ∈ [MATCH_HOSTNAME_PORT; MATCH_HOSTNAME_DEFAULT; MATCH_DEFAULT; MATCH_HOSTNAME].
Proof.
  unfold match_case. repeat destruct (decide _);
    rewrite !elem_of_cons; auto.
Qed.

Lemma match_case_hostname_port (h : string) (p : Z) (s : Site) :
  match_case h p s = MATCH_HOSTNAME_PORT <-> hostname s = h /\ port s = p.
Proof. unfold match_case. repeat case_decide; split; try done; discriminate. Qed.

Lemma match_case_default_only (h : string) (p : Z) (s : Site) :
  match_case h p s = MATCH_DEFAULT <->
  is_default_site s = true /\ hostname s <> h.
Proof.
  unfold match_case. repeat case_decide; split; try done; try discriminate; try logic.
  all: intros [? ?]; logic.
Qed.

Lemma match_case_hostname_only (h : string) (p : Z) (s : Site) :
  match_case h p s = MATCH_HOSTNAME <->
  is_default_site s <> true /\ ~ (hostname s = h /\ port s = p).
Proof.
  unfold match_case. repeat case_decide; split; try done; try discriminate; try logic.
Qed.

(** The first candidate has the least rank of all. *)
Lemma first_is_best (h : string) (p : Z) (rows : list Site)
      (first : AnnotatedSite) (others : list AnnotatedSite) :
  annotated_sites h p rows = first :: others ->
  forall a, a ∈ annotated_sites h p rows -> site_match first <= site_match a.
Proof.
  intros Heq a Ha. pose proof (annotated_sites_sorted h p rows) as Hs.
  rewrite Heq in Hs, Ha. apply StronglySorted_inv in Hs as [_ Hall].
  apply elem_of_cons in Ha as [-> | Ha]; [lia |].
  rewrite Forall_forall in Hall. by apply Hall.
Qed.

(** [pick_site] never indexes out of range: it returns one of the
    candidates or reports that there is none. *)
Lemma pick_site_cases (sites : list AnnotatedSite) :
  (exists a, a ∈ sites /\ pick_site sites = Ok (site a))
  \/ pick_site sites = Raise DoesNotExist.
Proof.
  destruct sites as [| first others]; [by right |].
  unfold pick_site.
  destruct (bool_decide _ || bool_decide _) eqn:E1.
  { left. exists first. split; [left | done]. }
  destruct (bool_decide (site_match first = MATCH_DEFAULT)); [| by right].
  left. clear E1. case_bool_decide as Hlen.
  - destruct others as [| second [| ? ?]]; try discriminate.
    exists second. split; [set_solver | done].
  - exists first. split; [left | done].
Qed.

Lemma keys_unique (rows : list Site) (s t : Site) :
  NoDup ((fun r => (hostname r, port r)) <$> rows) ->
  s ∈ rows -> t ∈ rows -> hostname s = hostname t -> port s = port t -> s = t.
Proof.
  induction rows as [| r rows IH]; intros Hnd Hs Ht Hh Hp; [by apply elem_of_nil in Hs |].
  rewrite fmap_cons in Hnd. apply NoDup_cons in Hnd as [Hnotin Hnd].
  apply elem_of_cons in Hs as [-> | Hs]; apply elem_of_cons in Ht as [-> | Ht]; auto.
  - exfalso. apply Hnotin. apply list_elem_of_fmap. exists t. by rewrite Hh, Hp.
  - exfalso. apply Hnotin. apply list_elem_of_fmap. exists s. by rewrite Hh, Hp.
Qed.

(** A row that matches hostname and port is the one returned, provided
    [(hostname, port)] is unique ([unique_together]). *)
Lemma exact_match_returned (w : World) (t : Site) :
  NoDup ((fun r => (hostname r, port r)) <$> site_table w) ->
  t ∈ site_table w ->
  (get_site_for_hostname (hostname t) (port t) w).1 = Ok t.
Proof.
  intros Hnd Ht. rewrite get_site_for_hostname_result.
  set (h := hostname t). set (p := port t).
  assert (Hin : annotate h p t ∈ annotated_sites h p (site_table w)).
  { apply elem_of_annotated_sites. exists t. auto. }
  remember (annotated_sites h p (site_table w)) as sites eqn:Heq.
  symmetry in Heq. destruct sites as [| first others].
  { exfalso. exact (not_elem_of_nil _ Hin). }
  assert (Hle : site_match first <= site_match (annotate h p t))
    by (apply (first_is_best _ _ _ _ _ Heq); by rewrite Heq).
  assert (Hfirst : first ∈ annotated_sites h p (site_table w)) by (rewrite Heq; left).
  apply elem_of_annotated_sites in Hfirst as (s & -> & Hs & _).
  assert (H0 : match_case h p t = MATCH_HOSTNAME_PORT)
    by (by apply match_case_hostname_port).
  cbn [annotate site_match] in Hle. rewrite H0 in Hle.
  assert (Hs0 : match_case h p s = MATCH_HOSTNAME_PORT).
  { pose proof (match_case_range h p s) as Hr.
    unfold MATCH_HOSTNAME_PORT, MATCH_HOSTNAME_DEFAULT, MATCH_DEFAULT, MATCH_HOSTNAME in *.
    set_unfold. lia. }
  unfold pick_site. cbn [annotate site_match site]. rewrite Hs0.
  rewrite (bool_decide_eq_true_2 (MATCH_HOSTNAME_PORT ∈ _)) by (rewrite !elem_of_cons; auto).
  rewrite orb_true_r. f_equal.
  apply match_case_hostname_port in Hs0 as [Hh Hp].
  by apply (keys_unique (site_table w)).
Qed.

(** C6. Two different sites of one hostname on different ports are
    each returned for their own port, and a site that matches hostname
    and port exactly is returned whatever other candidates there are;
    [(hostname, port)] is unique in the table ([unique_together]). *)
Theorem exact_hostname_port_match_wins (w : World) (T1 T2 : Site) :
  NoDup ((fun r => (hostname r, port r)) <$> site_table w) ->
  T1 ∈ site_table w -> T2 ∈ site_table w ->
  T1 <> T2 -> hostname T1 = hostname T2 -> port T1 <> port T2 ->
  (get_site_for_hostname (hostname T1) (port T1) w).1 = Ok T1
  /\ (get_site_for_hostname (hostname T1) (port T2) w).1 = Ok T2
  /\ (forall T, T ∈ site_table w ->
                (get_site_for_hostname (hostname T) (port T) w).1 = Ok T).
Proof.
  intros Hnd H1 H2 _ Hh _. repeat split.
  - by apply exact_match_returned.
  - rewrite Hh. by apply exact_match_returned.
  - intros T HT. by apply exact_match_returned.
Qed.

Lemma filter_ext_elem_of {A} (P Q : A -> Prop) `{forall x, Decision (P x)}
      `{forall x, Decision (Q x)} (l : list A) :
  (forall x, x ∈ l -> P x <-> Q x) -> filter P l = filter Q l.
Proof.
  induction l as [| x l IH]; intros Hext; [done |].
  rewrite !filter_cons.
  assert (Hx : P x <-> Q x) by (apply Hext; left).
  rewrite IH by (intros y Hy; apply Hext; by right).
  destruct (decide (P x)), (decide (Q x)); logic.
Qed.

Lemma length_annotated_sites (h : string) (p : Z) (rows : list Site) :
  length (annotated_sites h p rows)
  = length (filter (fun s => hostname s = h \/ is_default_site s = true) rows).
Proof. by rewrite annotated_sites_perm, length_fmap. Qed.

Lemma pick_site_DoesNotExist (sites : list AnnotatedSite) :
  pick_site sites = Raise DoesNotExist <->
  sites = []
  \/ exists first others,
       sites = first :: others /\ others <> []
       /\ site_match first ∉ [MATCH_HOSTNAME_PORT; MATCH_HOSTNAME_DEFAULT; MATCH_DEFAULT].
Proof.
  destruct sites as [| first others]; [split; auto |].
  unfold pick_site. split.
  - intros Hpick. right. exists first, others. split; [done |].
    destruct (bool_decide (length (first :: others) = 1%nat)) eqn:Hlen; [done |].
    apply bool_decide_eq_false in Hlen.
    destruct (bool_decide (site_match first ∈ _)) eqn:Hin; [done |].
    apply bool_decide_eq_false in Hin. cbn [orb] in Hpick.
    destruct (bool_decide (site_match first = MATCH_DEFAULT)) eqn:Hdef.
    + exfalso. destruct others as [| second others]; [done |].
      destruct (bool_decide (length (first :: second :: others) = 2%nat)); done.
    + apply bool_decide_eq_false in Hdef. split.
      * intros ->. by apply Hlen.
      * rewrite !elem_of_cons in *. rewrite elem_of_nil. logic.
  - intros [? | (f & o & [= <- <-] & Hne & Hnot)]; [done |].
    rewrite !elem_of_cons, elem_of_nil in Hnot.
    rewrite (bool_decide_eq_false_2 (length _ = 1%nat))
      by (destruct others; [done | cbn; lia]).
    rewrite (bool_decide_eq_false_2 (site_match first ∈ _))
      by (rewrite !elem_of_cons, elem_of_nil; logic).
    rewrite (bool_decide_eq_false_2 (site_match first = MATCH_DEFAULT)) by logic.
    done.
Qed.

Lemma unresolvable_iff (h : string) (p : Z) (rows : list Site) :
  pick_site (annotated_sites h p rows) = Raise DoesNotExist <-> unresolvable h p rows.
Proof.
  rewrite pick_site_DoesNotExist. unfold unresolvable. split.
  - intros [Hnil | (first & others & Heq & Hne & Hnot)].
    + assert (Hcands : filter (fun s => hostname s = h \/ is_default_site s = true) rows = []).
      { apply length_zero_iff_nil. by rewrite <- (length_annotated_sites h p), Hnil. }
      split.
      * intros s Hs. destruct (is_default_site s) eqn:Hd; [| done].
        exfalso. by apply (filter_nil_not_elem_of _ _ s Hcands); [right |].
      * left.
        rewrite <- (list_filter_filter_l (fun s => hostname s = h)
                     (fun s => hostname s = h \/ is_default_site s = true) rows)
          by (intros; by left).
        by rewrite Hcands.
    + assert (Hall : forall s, s ∈ rows -> hostname s = h \/ is_default_site s = true ->
                               match_case h p s = MATCH_HOSTNAME).
      { intros s Hs Hc.
        assert (Hin : annotate h p s ∈ annotated_sites h p rows)
          by (apply elem_of_annotated_sites; eauto).
        pose proof (first_is_best _ _ _ _ _ Heq _ Hin) as Hle.
        pose proof (match_case_range h p s) as Hr.
        assert (Hf : first ∈ annotated_sites h p rows) by (rewrite Heq; left).
        apply elem_of_annotated_sites in Hf as (f & -> & _ & _).
        pose proof (match_case_range h p f) as Hrf.
        cbn [annotate site_match] in *.
        rewrite !elem_of_cons, elem_of_nil in *.
        unfold MATCH_HOSTNAME_PORT, MATCH_HOSTNAME_DEFAULT, MATCH_DEFAULT, MATCH_HOSTNAME in *.
        lia. }
      assert (Hnodef : forall s, s ∈ rows -> is_default_site s = false).
      { intros s Hs. destruct (is_default_site s) eqn:Hd; [| done].
        apply Hall in Hs; [| by right].
        apply match_case_hostname_only in Hs as [Hs _]. congruence. }
      split; [done |]. right. split.
      * assert (Hc : filter (fun s => hostname s = h \/ is_default_site s = true) rows
                     = filter (fun s => hostname s = h) rows).
        { apply filter_ext_elem_of. intros s Hs. specialize (Hnodef s Hs).
          rewrite Hnodef. logic_with discriminate. }
        rewrite <- Hc, <- (length_annotated_sites h p), Heq.
        destruct others; [done | cbn; lia].
      * intros s Hs [Hh Hp].
        pose proof (Hall s Hs (or_introl Hh)) as Hm.
        apply match_case_hostname_only in Hm. logic.
  - intros [Hnodef Hhost].
    assert (Hcands : filter (fun s => hostname s = h \/ is_default_site s = true) rows
                     = filter (fun s => hostname s = h) rows).
    { apply filter_ext_elem_of. intros s Hs. specialize (Hnodef s Hs).
      rewrite Hnodef. logic_with discriminate. }
    destruct Hhost as [Hnil | [Hlen Hnoexact]].
    + left. apply length_zero_iff_nil.
      by rewrite length_annotated_sites, Hcands, Hnil.
    + right. pose proof (length_annotated_sites h p rows) as Hl.
      rewrite Hcands in Hl.
      destruct (annotated_sites h p rows) as [| first others] eqn:Heq;
        [cbn in Hl; lia |].
      exists first, others. split; [done |]. split.
      * intros ->. cbn in Hl. lia.
      * assert (Hf : first ∈ annotated_sites h p rows) by (rewrite Heq; left).
        apply elem_of_annotated_sites in Hf as (f & -> & Hfrows & _).
        assert (Hm : match_case h p f = MATCH_HOSTNAME).
        { apply match_case_hostname_only. split.
          - rewrite (Hnodef f Hfrows). discriminate.
          - by apply Hnoexact. }
        cbn [annotate site_match]. rewrite Hm.
        rewrite !elem_of_cons, elem_of_nil.
        unfold MATCH_HOSTNAME_PORT, MATCH_HOSTNAME_DEFAULT, MATCH_DEFAULT, MATCH_HOSTNAME.
        lia.
Qed.

(** C2 (amended). The resolver reports [DoesNotExist] exactly when no
    site is the default and either no site has the hostname, or two or
    more have it and none of them is on the requested port; in every other
    case it returns a site of the table. *)
Theorem not_found_iff_unresolvable (h : string) (p : Z) (w : World) :
  ((get_site_for_hostname h p w).1 = Raise DoesNotExist
   <-> unresolvable h p (site_table w))
  /\ ((exists s, s ∈ site_table w /\ (get_site_for_hostname h p w).1 = Ok s)
      <-> ~ unresolvable h p (site_table w)).
Proof.
  rewrite get_site_for_hostname_result, <- unresolvable_iff.
  split; [done |]. split.
  - intros (s & _ & ->). discriminate.
  - intros Hnot. destruct (pick_site_cases (annotated_sites h p (site_table w)))
      as [(a & Ha & Hpick) | Hpick]; [| done].
    apply elem_of_annotated_sites in Ha as (s & -> & Hs & _).
    exists s. done.
Qed.

Lemma filter_all {A} (P : A -> Prop) `{forall x, Decision (P x)} (l : list A) :
  (forall x, x ∈ l -> P x) -> filter P l = l.
Proof.
  induction l as [| x l IH]; intros Hall; [done |].
  rewrite filter_cons_True by (apply Hall; left).
  f_equal. apply IH. intros y Hy. apply Hall. by right.
Qed.

Lemma sites_of_annotated (h : string) (p : Z) (rows : list Site) :
  site <$> annotated_sites h p rows
    ≡ₚ filter (fun s => hostname s = h \/ is_default_site s = true) rows.
Proof.
  rewrite annotated_sites_perm, <- list_fmap_compose.
  induction (filter _ rows) as [| s l IH]; [done |].
  cbn. by rewrite IH.
Qed.

(** C1. When the best-ranked candidate is a default site of another
    hostname (rank [MATCH_DEFAULT]) and the table holds at most one default
    site, the resolver returns the only site of the requested hostname
    when there is exactly one, and the default site when there is none or
    there are several. *)
Theorem default_by_exclusion_tie_break (h : string) (p : Z) (w : World) :
  site_match <$> head (annotated_sites h p (site_table w)) = Some MATCH_DEFAULT ->
  (length (filter (fun s => is_default_site s = true) (site_table w)) <= 1)%nat ->
  exists d,
    filter (fun s => is_default_site s = true) (site_table w) = [d]
    /\ hostname d <> h
    /\ (forall only,
           filter (fun s => hostname s = h) (site_table w) = [only] ->
           (get_site_for_hostname h p w).1 = Ok only)
    /\ (length (filter (fun s => hostname s = h) (site_table w)) <> 1%nat ->
        (get_site_for_hostname h p w).1 = Ok d).
Proof.
  intros Hhead Hone. rewrite get_site_for_hostname_result.
  set (rows := site_table w) in *.
  pose proof (sites_of_annotated h p rows) as Hperm.
  destruct (annotated_sites h p rows) as [| first others] eqn:Heq; [discriminate |].
  cbn in Hhead. injection Hhead as Hfirst.
  assert (Hf : first ∈ annotated_sites h p rows) by (rewrite Heq; left).
  apply elem_of_annotated_sites in Hf as (d & -> & Hd & _).
  cbn [annotate site_match] in Hfirst.
  apply match_case_default_only in Hfirst as Hdd. destruct Hdd as [Hdef Hhost].
  cbn [fmap list_fmap annotate site] in Hperm. fold (fmap site others) in Hperm.
  (* the default site is [d] and no other candidate is a default site *)
  pose proof (filter_Permutation (fun s => is_default_site s = true) _ _ Hperm) as Hpd.
  rewrite filter_cons_True, list_filter_filter_l in Hpd by auto.
  assert (Hdefault : filter (fun s => is_default_site s = true) rows = [d]
                     /\ filter (fun s => is_default_site s = true) (site <$> others) = []).
  { pose proof (Permutation_length Hpd) as Hl. cbn in Hl.
    destruct (filter (fun s => is_default_site s = true) (site <$> others)) as [| x xs];
      [| cbn in Hl; lia].
    split; [| done]. symmetry. by apply Permutation_singleton_l. }
  destruct Hdefault as [Hdefault Hothers].
  (* the other candidates are the sites of the requested hostname *)
  pose proof (filter_Permutation (fun s => hostname s = h) _ _ Hperm) as Hph.
  rewrite filter_cons_False, list_filter_filter_l in Hph by auto.
  assert (Hsame : filter (fun s => hostname s = h) (site <$> others) = site <$> others).
  { apply filter_all. intros s Hs.
    assert (Hs' : s ∈ d :: (site <$> others)) by (by right).
    rewrite Hperm in Hs'. apply list_elem_of_filter in Hs' as [[? | Hsd] _]; [done |].
    exfalso. by apply (filter_nil_not_elem_of _ _ s Hothers). }
  rewrite Hsame in Hph.
  exists d. split; [done |]. split; [done |].
  unfold pick_site. cbn [annotate site_match site].
  assert (Hm : match_case h p d = MATCH_DEFAULT) by (by apply match_case_default_only).
  rewrite Hm.
  rewrite (bool_decide_eq_false_2 (MATCH_DEFAULT ∈ _))
    by (rewrite !elem_of_cons, elem_of_nil; logic_with discriminate).
  rewrite (bool_decide_eq_true_2 (MATCH_DEFAULT = MATCH_DEFAULT)) by done.
  rewrite orb_false_r. split.
  - intros only Honly. rewrite Honly in Hph.
    apply Permutation_singleton_r in Hph.
    destruct others as [| a [| ? ?]]; try discriminate.
    cbn in Hph. injection Hph as Ha.
    rewrite bool_decide_eq_false_2 by (cbn; lia).
    rewrite bool_decide_eq_true_2 by done.
    cbn. by rewrite Ha.
  - intros Hlen. rewrite <- (Permutation_length Hph), length_fmap in Hlen.
    destruct others as [| a [| b others]]; [| done |].
    + by rewrite bool_decide_eq_true_2.
    + rewrite !bool_decide_eq_false_2 by (cbn; lia). done.
Qed.

(** *** Rows of equal rank

    [order_by("match")] leaves the order of rows of equal rank to the
    database.  With [(hostname, port)] unique and at most one default site,
    whichever order it takes, the site returned is the same. *)

Lemma default_site_unique (rows : list Site) (s t : Site) :
  (length (filter (fun r => is_default_site r = true) rows) <= 1)%nat ->
  s ∈ rows -> t ∈ rows -> is_default_site s = true -> is_default_site t = true -> s = t.
Proof.
  intros Hone Hs Ht Hds Hdt.
  assert (Hs' : s ∈ filter (fun r => is_default_site r = true) rows)
    by (by apply list_elem_of_filter).
  assert (Ht' : t ∈ filter (fun r => is_default_site r = true) rows)
    by (by apply list_elem_of_filter).
  destruct (filter (fun r => is_default_site r = true) rows) as [| x [| y l]].
  - by apply not_elem_of_nil in Hs'.
  - apply list_elem_of_singleton in Hs', Ht'. congruence.
  - cbn in Hone. lia.
Qed.

Lemma match_case_is_default (h : string) (p : Z) (s : Site) :
  match_case h p s = MATCH_HOSTNAME_DEFAULT \/ match_case h p s = MATCH_DEFAULT ->
  is_default_site s = true.
Proof.
  unfold match_case.
  destruct (decide (hostname s = h /\ port s = p)); [intros [|]; discriminate |].
  destruct (decide (hostname s = h /\ is_default_site s = true)) as [[_ ?] |]; [done |].
  destruct (decide (is_default_site s = true)); [done |].
  intros [|]; discriminate.
Qed.

Lemma pick_site_permutation (sites1 sites2 : list AnnotatedSite) :
  sites1 ≡ₚ sites2 ->
  StronglySorted match_le sites1 -> StronglySorted match_le sites2 ->
  (forall a b, a ∈ sites1 -> b ∈ sites1 -> site_match a = site_match b ->
               site_match a <> MATCH_HOSTNAME -> a = b) ->
  (forall a, a ∈ sites1 -> 0 <= site_match a <= 3) ->
  pick_site sites1 = pick_site sites2.
Proof.
  intros Hperm Hs1 Hs2 Huniq Hrange.
  destruct sites1 as [| f1 o1], sites2 as [| f2 o2]; [done | | |].
  { by apply Permutation_nil_l in Hperm. }
  { by apply Permutation_nil_r in Hperm. }
  apply StronglySorted_inv in Hs1 as [_ Hall1], Hs2 as [_ Hall2].
  rewrite Forall_forall in Hall1, Hall2.
  assert (Hin2 : f2 ∈ f1 :: o1) by (rewrite Hperm; left).
  assert (Hin1 : f1 ∈ f2 :: o2) by (rewrite <- Hperm; left).
  assert (Hm : site_match f1 = site_match f2).
  { apply elem_of_cons in Hin1 as [-> | Hin1]; [done |].
    apply elem_of_cons in Hin2 as [-> | Hin2]; [done |].
    pose proof (Hall1 _ Hin2). pose proof (Hall2 _ Hin1). unfold match_le in *. lia. }
  assert (Hlen : length o1 = length o2).
  { pose proof (Permutation_length Hperm) as Hl. cbn in Hl. lia. }
  destruct (decide (site_match f1 = MATCH_HOSTNAME)) as [Hrank | Hrank].
  - unfold pick_site. rewrite <- Hm, Hrank. cbn [length]. rewrite <- Hlen.
    destruct o1 as [| a1 o1], o2 as [| a2 o2]; try discriminate.
    + apply Permutation_singleton_inj in Hperm. by subst.
    + rewrite !bool_decide_eq_false_2; [done | done | | cbn; lia].
      rewrite !elem_of_cons, elem_of_nil.
      unfold MATCH_HOSTNAME, MATCH_HOSTNAME_PORT, MATCH_HOSTNAME_DEFAULT. lia.
  - assert (f1 = f2) as <- by (apply Huniq; [left | done | done | done]).
    apply (inj (cons f1)) in Hperm.
    unfold pick_site. cbn [length]. rewrite <- Hlen.
    destruct o1 as [| a1 [| b1 o1]], o2 as [| a2 [| b2 o2]]; try discriminate; try done.
    apply Permutation_singleton_inj in Hperm. by subst.
Qed.

(** X4. [order_by("match")] leaves the order of rows of equal rank to
    the database.  With [(hostname, port)] unique and at most one default
    site, any sorted arrangement of the candidates gives the site that the
    arrangement of the model gives. *)
Lemma pick_site_any_tie_order (h : string) (p : Z) (rows : list Site)
      (sites : list AnnotatedSite) :
  NoDup ((fun r => (hostname r, port r)) <$> rows) ->
  (length (filter (fun r => is_default_site r = true) rows) <= 1)%nat ->
  sites ≡ₚ annotate h p <$> filter (fun s => hostname s = h \/ is_default_site s = true) rows ->
  Sorted match_le sites ->
  pick_site sites = pick_site (annotated_sites h p rows).
Proof.
  intros Hnd Hone Hperm Hsorted. symmetry.
  apply pick_site_permutation.
  - by rewrite annotated_sites_perm, Hperm.
  - apply annotated_sites_sorted.
  - by apply Sorted_StronglySorted; [apply _ |].
  - intros a b Ha Hb Hm Hrank.
    apply elem_of_annotated_sites in Ha as (s & -> & Hs & _).
    apply elem_of_annotated_sites in Hb as (t & -> & Ht & _).
    cbn [annotate site_match] in Hm, Hrank. f_equal.
    pose proof (match_case_range h p s) as Hr.
    rewrite !elem_of_cons, elem_of_nil in Hr.
    destruct Hr as [Hr | [Hr | [Hr | [Hr | []]]]]; [| | | done].
    + rewrite Hr in Hm. symmetry in Hm.
      apply match_case_hostname_port in Hr as [? ?], Hm as [? ?].
      apply (keys_unique rows); congruence.
    + apply (default_site_unique rows); try done.
      * apply (match_case_is_default h p). by left.
      * apply (match_case_is_default h p). left. congruence.
    + apply (default_site_unique rows); try done.
      * apply (match_case_is_default h p). by right.
      * apply (match_case_is_default h p). right. congruence.
  - intros a Ha. apply elem_of_annotated_sites in Ha as (s & -> & _).
    pose proof (match_case_range h p s) as Hr.
    rewrite !elem_of_cons, elem_of_nil in Hr. cbn [annotate site_match].
    unfold MATCH_HOSTNAME_PORT, MATCH_HOSTNAME_DEFAULT, MATCH_DEFAULT, MATCH_HOSTNAME in Hr.
    lia.
Qed.

(** ** Properties of the base URL *)

(** [format_d] writes the number in decimal: reading the text back gives
    the number. *)
Lemma format_d_reads_back (n : Z) :
  Z.of_int <$> NilZero.int_of_string (format_d n) = Some n.
Proof.
  unfold format_d. rewrite NilZero.isi.
  - cbn. f_equal. apply DecimalZ.of_to.
  - destruct n as [| q | q]; cbn; try discriminate.
    intros [= Hnil]. by apply (DecimalPos.Unsigned.to_uint_nonnil q).
  - destruct n as [| q | q]; cbn; try discriminate.
    intros [= Hnil]. by apply (DecimalPos.Unsigned.to_uint_nonnil q).
Qed.

(** C9. The base URL of a site is [http://hostname] on port 80,
    [https://hostname] on port 443 and [http://hostname:port] on every
    other port, the port written in decimal. *)
Theorem root_url_by_port (self : Site) :
  (port self = 80 -> root_url self = "http://" ++ hostname self)
  /\ (port self = 443 -> root_url self = "https://" ++ hostname self)
  /\ (port self <> 80 -> port self <> 443 ->
      root_url self = "http://" ++ hostname self ++ ":" ++ format_d (port self)).
Proof.
  unfold root_url. repeat split.
  - intros ->. done.
  - intros ->. done.
  - intros H80 H443. by rewrite !decide_False.
Qed.

(** ** Properties of Site.find_for_request *)

(** C10. Without a request there is no site: the call returns [None],
    raises nothing and leaves the world as it was, so no query reaches the
    site table, whatever the table holds. *)
Theorem find_for_request_None (w : World) :
  find_for_request None w = (Ok (None, None), w)
  /\ site_queries (find_for_request None w).2 = site_queries w.
Proof. split; reflexivity. Qed.

(** With a request that has no [_wagtail_site] yet, the table is queried
    once, unless [get_host()] itself raises or the port is refused. *)
Lemma find_for_request_queries_once
      (request : HttpRequest) (host : string) (number : Z) (w : World) :
  _wagtail_site request = None ->
  get_host request = Ok host ->
  port_value (get_port request) = Ok number ->
  site_queries (find_for_request (Some request) w).2 = S (site_queries w).
Proof.
  intros Hattr Hhost Hport. unfold find_for_request. rewrite Hattr.
  unfold _find_for_request, bind, lift, try_except. rewrite Hhost, Hport.
  unfold get_site_for_hostname, bind, Site_objects, lift, ret.
  destruct (pick_site _) as [s | e]; [done |].
  cbn. by destruct (is_DoesNotExist e).
Qed.

(** X6. The site found for a request stays with the request, also when
    none was found: asking again answers the same and leaves the world as
    it is, so no query is sent. *)
Lemma find_for_request_memoized (request : HttpRequest) (w : World)
      (found : option Site) (request' : HttpRequest) (w' : World) :
  find_for_request (Some request) w = (Ok (found, Some request'), w') ->
  find_for_request (Some request') w' = (Ok (found, Some request'), w').
Proof.
  unfold find_for_request.
  destruct (_wagtail_site request) as [cached |] eqn:Hattr.
  - intros [= <- <- <-]. by rewrite Hattr.
  - unfold bind. destruct (_find_for_request request w) as [[site | e] w1]; [| done].
    intros [= <- <- <-]. done.
Qed.

(** ** Properties of the root-path cache *)

Lemma compute_root_paths_bind (rows : list Site) :
  compute_root_paths rows = Current <$> (ordered_sites rows ≫= site_root_paths).
Proof.
  unfold compute_root_paths.
  assert (Hgen : forall sites acc,
    foldl (fun result s => (result ++ (Current <$> site_root_paths s))%list) acc sites
    = (acc ++ (Current <$> (sites ≫= site_root_paths)))%list).
  { induction sites as [| s sites IH]; intros acc; cbn.
    - by rewrite app_nil_r.
    - by rewrite IH, fmap_app, app_assoc. }
  by rewrite Hgen.
Qed.

Lemma compute_root_paths_current (rows : list Site) :
  has_legacy_record (compute_root_paths rows) = false.
Proof.
  rewrite compute_root_paths_bind. unfold has_legacy_record.
  induction (ordered_sites rows ≫= site_root_paths) as [| r l IH]; [done |].
  cbn. by rewrite IH.
Qed.

Lemma has_legacy_record_Exists (cached : list site_record) :
  has_legacy_record cached = true <-> Exists (fun r => len r = 3) cached.
Proof.
  unfold has_legacy_record. rewrite existsb_exists, Exists_exists.
  split; intros (r & Hin & Hr); exists r.
  - split; [by apply list_elem_of_In | by apply bool_decide_eq_true in Hr].
  - split; [by apply list_elem_of_In | by apply bool_decide_eq_true].
Qed.

Lemma get_site_root_paths_miss (w : World) :
  (cache_get "wagtail_site_root_paths" w).1 = Ok None ->
  get_site_root_paths w = recomputed w.
Proof.
  unfold get_site_root_paths, bind, cache_get. cbn [fst].
  intros [= Hget]. rewrite Hget. reflexivity.
Qed.

Lemma get_site_root_paths_legacy (w : World) (cached : list site_record) :
  (cache_get "wagtail_site_root_paths" w).1 = Ok (Some cached) ->
  has_legacy_record cached = true ->
  get_site_root_paths w = recomputed w.
Proof.
  unfold get_site_root_paths, bind, cache_get. cbn [fst].
  intros [= Hget] Hlegacy. rewrite Hget, Hlegacy. reflexivity.
Qed.

Lemma get_site_root_paths_hit (w : World) (cached : list site_record) :
  (cache_get "wagtail_site_root_paths" w).1 = Ok (Some cached) ->
  has_legacy_record cached = false ->
  get_site_root_paths w = (Ok cached, w).
Proof.
  unfold get_site_root_paths, bind, cache_get. cbn [fst].
  intros [= Hget] Hlegacy. rewrite Hget, Hlegacy. reflexivity.
Qed.

(** C8. A cached list with a record of the old three-field shape counts
    as a miss: the list is computed afresh from the site table (one
    query), stored under the key with a timeout of 3600 seconds, and
    returned; for the following hour the cache answers with the fresh
    list. *)
Theorem legacy_cache_is_recomputed (w : World) (cached : list site_record) :
  (cache_get "wagtail_site_root_paths" w).1 = Ok (Some cached) ->
  Exists (fun site_record => len site_record = 3) cached ->
  let fresh := compute_root_paths (site_table w) in
  let w' := (get_site_root_paths w).2 in
  (get_site_root_paths w).1 = Ok fresh
  /\ site_queries w' = S (site_queries w)
  /\ site_table w' = site_table w
  /\ cache w' !! "wagtail_site_root_paths" = Some (fresh, now w + 3600)
  /\ (forall dt, 0 <= dt < 3600 ->
        (cache_get "wagtail_site_root_paths" (advance dt w')).1 = Ok (Some fresh))
  /\ (forall dt, 3600 <= dt ->
        (cache_get "wagtail_site_root_paths" (advance dt w')).1 = Ok None).
Proof.
  intros Hget Hlegacy fresh w'. subst w'.
  apply has_legacy_record_Exists in Hlegacy.
  rewrite (get_site_root_paths_legacy w cached Hget Hlegacy).
  unfold recomputed. cbn [fst snd with_cache with_site_queries site_queries site_table cache].
  repeat split.
  - apply lookup_insert_eq.
  - intros dt Hdt. unfold cache_get, advance. cbn.
    rewrite lookup_insert_eq. by rewrite decide_True by lia.
  - intros dt Hdt. unfold cache_get, advance. cbn.
    rewrite lookup_insert_eq. by rewrite decide_False by lia.
Qed.

(** *** The order of the query *)

Lemma ascii_compare_refl (c : ascii) : Ascii.compare c c = Eq.
Proof. unfold Ascii.compare. apply N.compare_refl. Qed.

Lemma string_compare_refl (s : string) : String.compare s s = Eq.
Proof. induction s as [| c s IH]; [done |]. cbn. by rewrite ascii_compare_refl. Qed.

Lemma string_compare_Eq (s t : string) : String.compare s t = Eq <-> s = t.
Proof. split; [apply String.compare_eq_iff | intros ->; apply string_compare_refl]. Qed.

Lemma string_compare_Lt_trans (s t u : string) :
  String.compare s t = Lt -> String.compare t u = Lt -> String.compare s u = Lt.
Proof.
  revert t u. induction s as [| a s IH]; intros [| b t] [| c u]; cbn; try done.
  unfold Ascii.compare.
  destruct (N.compare_spec (N_of_ascii a) (N_of_ascii b)) as [Hab | Hab | Hab];
    destruct (N.compare_spec (N_of_ascii b) (N_of_ascii c)) as [Hbc | Hbc | Hbc];
    try done; intros Hst Htu.
  - rewrite Hab, Hbc, N.compare_refl. eauto.
  - rewrite Hab. by rewrite (proj2 (N.compare_lt_iff _ _) Hbc).
  - rewrite <- Hbc. by rewrite (proj2 (N.compare_lt_iff _ _) Hab).
  - by rewrite (proj2 (N.compare_lt_iff _ _) (N.lt_trans _ _ _ Hab Hbc)).
Qed.

Lemma string_leb_trans (s t u : string) :
  String.leb s t = true -> String.leb t u = true -> String.leb s u = true.
Proof.
  unfold String.leb.
  destruct (String.compare s t) eqn:Hst; try done;
    destruct (String.compare t u) eqn:Htu; try done; intros _ _.
  - apply string_compare_Eq in Hst as ->. by rewrite Htu.
  - apply string_compare_Eq in Hst as ->. by rewrite Htu.
  - apply string_compare_Eq in Htu as <-. by rewrite Hst.
  - by rewrite (string_compare_Lt_trans s t u).
Qed.

#[local] Instance root_paths_before_total : Total root_paths_before.
Proof.
  intros a b. unfold root_paths_before, root_paths_order.
  pose proof (String.compare_antisym (url_path (root_page a)) (url_path (root_page b)))
    as Hanti.
  destruct (String.compare (url_path (root_page b)) (url_path (root_page a)));
    rewrite Hanti; cbn; auto.
  destruct (is_default_site a), (is_default_site b); auto; apply String.leb_total.
Qed.

#[local] Instance root_paths_before_trans : Transitive root_paths_before.
Proof.
  intros a b c. unfold root_paths_before, root_paths_order.
  destruct (String.compare (url_path (root_page b)) (url_path (root_page a))) eqn:Hba;
    try done;
    destruct (String.compare (url_path (root_page c)) (url_path (root_page b))) eqn:Hcb;
    try done.
  - apply string_compare_Eq in Hba, Hcb. rewrite Hcb, Hba, string_compare_refl.
    destruct (is_default_site a), (is_default_site b), (is_default_site c);
      try done; apply string_leb_trans.
  - apply string_compare_Eq in Hba. rewrite <- Hba, Hcb. done.
  - apply string_compare_Eq in Hcb. rewrite Hcb, Hba. done.
  - by rewrite (string_compare_Lt_trans _ _ _ Hcb Hba).
Qed.


Lemma ordered_sites_perm (rows : list Site) : ordered_sites rows ≡ₚ rows.
Proof. apply merge_sort_Permutation. Qed.


(** *** What the call returns *)

Lemma get_site_root_paths_cases (w : World) :
  get_site_root_paths w = recomputed w
  \/ exists cached,
       (cache_get "wagtail_site_root_paths" w).1 = Ok (Some cached)
       /\ has_legacy_record cached = false
       /\ get_site_root_paths w = (Ok cached, w).
Proof.
  destruct ((cache_get "wagtail_site_root_paths" w).1) as [[cached |] | e] eqn:Hr.
  - destruct (has_legacy_record cached) eqn:Hlegacy.
    + left. by apply (get_site_root_paths_legacy w cached).
    + right. exists cached. split; [done |]. split; [done |].
      by apply get_site_root_paths_hit.
  - left. by apply get_site_root_paths_miss.
  - discriminate.
Qed.

Lemma get_site_root_paths_coherent (w : World) :
  cache_coherent w ->
  (get_site_root_paths w).1 = Ok (compute_root_paths (site_table w)).
Proof.
  intros Hco.
  destruct (get_site_root_paths_cases w) as [-> | (cached & Hr & Hlegacy & ->)]; [done |].
  cbn. destruct (Hco cached Hr) as [? | ->]; [congruence | done].
Qed.




(** *** The cache stays coherent *)

Lemma cache_coherent_without_entry (w : World) :
  cache w !! "wagtail_site_root_paths" = None -> cache_coherent w.
Proof.
  intros Hnone cached. unfold cache_get. cbn. by rewrite Hnone.
Qed.

Lemma cache_coherent_get_site_root_paths (w : World) :
  cache_coherent w -> cache_coherent (get_site_root_paths w).2.
Proof.
  intros Hco.
  destruct (get_site_root_paths_cases w) as [-> | (cached & Hr & Hlegacy & ->)]; [| done].
  intros cached. unfold recomputed, cache_get. cbn.
  rewrite lookup_insert_eq. case_decide; [| done]. intros [= <-]. by right.
Qed.

Lemma cache_coherent_advance (dt : Z) (w : World) :
  0 <= dt -> cache_coherent w -> cache_coherent (advance dt w).
Proof.
  intros Hdt Hco cached. specialize (Hco cached). revert Hco.
  unfold cache_get, advance. cbn [fst now cache site_table].
  destruct (cache w !! "wagtail_site_root_paths") as [[v expiry] |]; [| done].
  intros Hco Hget. apply Hco.
  destruct (decide (now w + dt < expiry)); [| discriminate].
  by rewrite decide_True by lia.
Qed.

Lemma mutate_evicts (m : Mutation) (w : World) :
  cache (mutate m w).2 !! "wagtail_site_root_paths" = None.
Proof.
  destruct m as [s | s]; unfold mutate, bind, save, delete_site.
  - destruct (pk s) as [k |]; [case_bool_decide |]; cbn; apply lookup_delete_eq.
  - cbn. apply lookup_delete_eq.
Qed.

Lemma cache_coherent_mutate (m : Mutation) (w : World) :
  cache_coherent (mutate m w).2.
Proof. apply cache_coherent_without_entry, mutate_evicts. Qed.

(** C3. After a site is saved (created or updated) or deleted, the
    cache has no entry under ["wagtail_site_root_paths"]; the next
    [get_site_root_paths()] queries the site table and returns the list
    computed from the table as the change left it. *)
Theorem site_mutation_evicts_root_paths (m : Mutation) (w : World) :
  let w' := (mutate m w).2 in
  cache w' !! "wagtail_site_root_paths" = None
  /\ (cache_get "wagtail_site_root_paths" w').1 = Ok None
  /\ (get_site_root_paths w').1 = Ok (compute_root_paths (site_table w'))
  /\ site_queries (get_site_root_paths w').2 = S (site_queries w').
Proof.
  intros w'. pose proof (mutate_evicts m w) as Hev. fold w' in Hev.
  assert (Hget : (cache_get "wagtail_site_root_paths" w').1 = Ok None)
    by (unfold cache_get; cbn; by rewrite Hev).
  repeat split; try done.
  - by rewrite (get_site_root_paths_miss w' Hget).
  - by rewrite (get_site_root_paths_miss w' Hget).
Qed.

(** X11. Two calls in a row: the second returns what the first did and
    sends no query, whatever the cache held before the first. *)

Lemma second_call_is_served_from_cache (w : World) :
  let first := get_site_root_paths w in
  (get_site_root_paths first.2).1 = first.1
  /\ site_queries (get_site_root_paths first.2).2 = site_queries first.2.
Proof.
  intros first. subst first.
  destruct (get_site_root_paths_cases w) as [-> | (cached & Hr & Hlegacy & ->)].
  - unfold recomputed. cbn [fst snd].
    rewrite (get_site_root_paths_hit _ (compute_root_paths (site_table w))); [done | |].
    + unfold cache_get. cbn. rewrite lookup_insert_eq. by rewrite decide_True by lia.
    + apply compute_root_paths_current.
  - cbn [fst snd]. by rewrite (get_site_root_paths_hit w cached Hr Hlegacy).
Qed.

(** ** Properties of Site.clean_fields *)

Lemma clean_fields_unfold (self : Site) (exclude : option (list string)) (w : World) :
  super_clean_fields self exclude = Ok tt ->
  (clean_fields self exclude w).1
  = match objects_get (fun s => is_default_site s = true) (site_table w) with
    | Raise DoesNotExist => Ok tt
    | Raise e => Raise e
    | Ok default =>
        if is_default_site self && bool_decide (pk self <> pk default)
        then Raise (ValidationError "is_default_site"
                      [already_default_message (hostname default)])
        else Ok tt
    end.
Proof.
  intros Hsuper. unfold clean_fields, bind, lift, Site_objects. rewrite Hsuper.
  destruct (objects_get _ (site_table w)) as [default | e]; cbn.
  - by destruct (is_default_site self && bool_decide (pk self <> pk default)).
  - by destruct e.
Qed.

(** C5. With one default site [d] in the table and the inherited field
    validation passing, validating a site that has the default flag and
    another primary key raises a validation error on [is_default_site]
    whose message starts with the hostname of [d]; validating a site with
    the primary key of [d] raises nothing. *)
Theorem second_default_site_is_rejected
        (self d : Site) (exclude : option (list string)) (w : World) :
  super_clean_fields self exclude = Ok tt ->
  filter (fun s => is_default_site s = true) (site_table w) = [d] ->
  (is_default_site self = true -> pk self <> pk d ->
     (clean_fields self exclude w).1
     = Raise (ValidationError "is_default_site"
                [hostname d ++ " is already configured as the default site."
                   ++ " You must unset that before you can save this site as default."]))
  /\ (pk self = pk d -> (clean_fields self exclude w).1 = Ok tt).
Proof.
  intros Hsuper Hone. rewrite clean_fields_unfold by done.
  unfold objects_get. rewrite Hone. split.
  - intros -> Hpk. by rewrite bool_decide_eq_true_2.
  - intros Hpk. rewrite (bool_decide_eq_false_2 (pk self <> pk d)) by (intros Hne; by apply Hne).
    by rewrite andb_false_r.
Qed.

(** Without a default site every site validates; with several default
    sites in the table the lookup itself raises. *)
Lemma clean_fields_other_tables
      (self : Site) (exclude : option (list string)) (w : World) :
  super_clean_fields self exclude = Ok tt ->
  (filter (fun s => is_default_site s = true) (site_table w) = [] ->
   (clean_fields self exclude w).1 = Ok tt)
  /\ ((2 <= length (filter (fun s => is_default_site s = true) (site_table w)))%nat ->
      (clean_fields self exclude w).1 = Raise MultipleObjectsReturned).
Proof.
  intros Hsuper. rewrite clean_fields_unfold by done. unfold objects_get. split.
  - by intros ->.
  - destruct (filter _ (site_table w)) as [| a [| b l]]; cbn; (lia || done).
Qed.

(** ** Properties of the site-user model setting *)

Lemma resolve_SiteUser_fresh (w : World) :
  SiteUser w = None ->
  resolve_SiteUser w
  = match get_site_user_model with
    | Ok m => (Ok m, with_SiteUser (Some m) w)
    | Raise e => (Raise e, w)
    end.
Proof. intros Hnone. unfold resolve_SiteUser. by rewrite Hnone. Qed.

(** C4 (amended). A setting that is not present, is not of the shape
    [app_label.model_name], or names a model that is not installed makes
    [get_site_user_model()] raise [ImproperlyConfigured] with the message
    of its case.  The module does not call it when it is loaded: loading
    leaves the global [SiteUser] at [None] and raises nothing, and the
    error comes out of the first [AbstractSiteUser.find_for_request]. *)
Theorem misconfigured_site_user_model_raises_on_first_use :
  (SITE_USER_MODEL settings = None ->
   get_site_user_model
   = Raise (ImproperlyConfigured
       "Please configure settings.SITE_USER_MODEL             that should subclass the AbstractSiteUser"))
  /\ (forall name, SITE_USER_MODEL settings = Some name ->
        length (split "." name) <> 2%nat ->
        get_site_user_model
        = Raise (ImproperlyConfigured "settings must be of the form 'app_label.model_name'"))
  /\ (forall name label model, SITE_USER_MODEL settings = Some name ->
        split "." name = [label; model] ->
        registry label model = None ->
        get_site_user_model
        = Raise (ImproperlyConfigured
            ("settings refers to model '" ++ name ++ "' that has not been installed")))
  /\ (forall w, (module_init w).1 = Ok tt /\ SiteUser (module_init w).2 = None)
  /\ (forall e request w,
        get_site_user_model = Raise e ->
        AbstractSiteUser_find_for_request request (module_init w).2
        = (Raise e, (module_init w).2)).
Proof.
  unfold get_site_user_model, apps_get_model. repeat split.
  - by intros ->.
  - intros name -> Hlen.
    destruct (split "." name) as [| a [| b [| c l]]]; done.
  - intros name label model -> -> ->. done.
  - intros e request w Hraise.
    unfold AbstractSiteUser_find_for_request, bind.
    rewrite resolve_SiteUser_fresh by done.
    unfold get_site_user_model, apps_get_model. by rewrite Hraise.
Qed.


(** ** More about the resolver *)


(** The candidates after a first candidate that is not itself a site of
    the hostname, when the table has at most one default site and the first
    candidate is that site: the sites of the hostname. *)
Lemma others_after_default (h : string) (p : Z) (rows : list Site)
      (d : Site) (others : list AnnotatedSite) :
  (length (filter (fun s => is_default_site s = true) rows) <= 1)%nat ->
  annotated_sites h p rows = annotate h p d :: others ->
  is_default_site d = true -> hostname d <> h ->
  site <$> others ≡ₚ filter (fun s => hostname s = h) rows.
Proof.
  intros Hone Heq Hdef Hhost.
  pose proof (sites_of_annotated h p rows) as Hperm. rewrite Heq in Hperm.
  cbn [fmap list_fmap annotate site] in Hperm. fold (fmap site others) in Hperm.
  pose proof (filter_Permutation (fun s => is_default_site s = true) _ _ Hperm) as Hpd.
  rewrite filter_cons_True, list_filter_filter_l in Hpd by auto.
  assert (Hothers : filter (fun s => is_default_site s = true) (site <$> others) = []).
  { pose proof (Permutation_length Hpd) as Hl. cbn in Hl.
    destruct (filter (fun s => is_default_site s = true) (site <$> others)); [done |].
    cbn in Hl. lia. }
  pose proof (filter_Permutation (fun s => hostname s = h) _ _ Hperm) as Hph.
  rewrite filter_cons_False, list_filter_filter_l in Hph by auto.
  rewrite <- Hph, filter_all; [done |]. intros s Hs.
  assert (Hs' : s ∈ d :: (site <$> others)) by (by right).
  rewrite Hperm in Hs'. apply list_elem_of_filter in Hs' as [[? | Hsd] _]; [done |].
  exfalso. by apply (filter_nil_not_elem_of _ _ s Hothers).
Qed.

(** X2. When exactly one site has the requested hostname and the table
    holds at most one default site, that site is returned, whatever port is
    asked for and whether or not it or another site is the default. *)
Theorem only_site_of_hostname_is_returned (h : string) (p : Z) (w : World) (only : Site) :
  (length (filter (fun s => is_default_site s = true) (site_table w)) <= 1)%nat ->
  filter (fun s => hostname s = h) (site_table w) = [only] ->
  (get_site_for_hostname h p w).1 = Ok only.
Proof.
  intros Hone Honly. rewrite get_site_for_hostname_result.
  set (rows := site_table w) in *.
  assert (Hof : forall s, s ∈ rows -> hostname s = h -> s = only).
  { intros s Hs Hh. assert (Hin : s ∈ filter (fun s => hostname s = h) rows)
      by (by apply list_elem_of_filter).
    rewrite Honly in Hin. by apply list_elem_of_singleton in Hin. }
  assert (Hin : only ∈ filter (fun s => hostname s = h) rows) by (rewrite Honly; left).
  apply list_elem_of_filter in Hin as [Hh Hrow].
  assert (Hcand : annotate h p only ∈ annotated_sites h p rows)
    by (apply elem_of_annotated_sites; eauto).
  pose proof (sites_of_annotated h p rows) as Hperm.
  remember (annotated_sites h p rows) as sites eqn:Heq. symmetry in Heq.
  destruct sites as [| first others]; [exfalso; exact (not_elem_of_nil _ Hcand) |].
  assert (Hf : first ∈ annotated_sites h p rows) by (rewrite Heq; left).
  apply elem_of_annotated_sites in Hf as (f & -> & Hfrow & Hfc).
  pose proof (match_case_range h p f) as Hr. rewrite !elem_of_cons, elem_of_nil in Hr.
  destruct Hr as [Hr | [Hr | [Hr | [Hr | []]]]].
  - (* hostname and port *)
    apply match_case_hostname_port in Hr as Hr'. destruct Hr' as [Hfh _].
    rewrite (Hof f Hfrow Hfh) in *. unfold pick_site. cbn [annotate site_match site].
    rewrite Hr. rewrite (bool_decide_eq_true_2 (MATCH_HOSTNAME_PORT ∈ _))
      by (rewrite !elem_of_cons; auto).
    by rewrite orb_true_r.
  - (* hostname and default *)
    assert (Hfh : hostname f = h).
    { revert Hr. unfold match_case. repeat case_decide; try discriminate. logic. }
    rewrite (Hof f Hfrow Hfh) in *. unfold pick_site. cbn [annotate site_match site].
    rewrite Hr. rewrite (bool_decide_eq_true_2 (MATCH_HOSTNAME_DEFAULT ∈ _))
      by (rewrite !elem_of_cons; auto).
    by rewrite orb_true_r.
  - (* the default site of another hostname comes first *)
    apply match_case_default_only in Hr as Hr'. destruct Hr' as [Hdef Hhost].
    pose proof (others_after_default h p rows f others Hone Heq Hdef Hhost) as Hph.
    rewrite Honly in Hph. apply Permutation_singleton_r in Hph.
    destruct others as [| a [| ? ?]]; try discriminate.
    cbn in Hph. injection Hph as Ha.
    unfold pick_site. cbn [annotate site_match site]. rewrite Hr.
    rewrite (bool_decide_eq_false_2 (MATCH_DEFAULT ∈ _))
      by (rewrite !elem_of_cons, elem_of_nil; logic_with discriminate).
    rewrite (bool_decide_eq_false_2 (_ = 1%nat)) by (cbn; lia).
    rewrite (bool_decide_eq_true_2 (MATCH_DEFAULT = MATCH_DEFAULT)) by done.
    rewrite (bool_decide_eq_true_2 (_ = 2%nat)) by done.
    cbn. by rewrite Ha.
  - (* no default site and no exact match: the only candidate *)
    assert (Hall : forall a, a ∈ annotate h p f :: others ->
                             hostname (site a) = h /\ is_default_site (site a) <> true).
    { intros a Ha.
      pose proof (first_is_best _ _ _ _ _ Heq a ltac:(by rewrite Heq)) as Hle.
      rewrite <- Heq in Ha. apply elem_of_annotated_sites in Ha as (s & -> & Hs & Hc).
      pose proof (match_case_range h p s) as Hrs. rewrite !elem_of_cons, elem_of_nil in Hrs.
      cbn [annotate site_match site] in *.
      assert (Hm : match_case h p s = MATCH_HOSTNAME).
      { unfold MATCH_HOSTNAME_PORT, MATCH_HOSTNAME_DEFAULT, MATCH_DEFAULT, MATCH_HOSTNAME in *.
        lia. }
      apply match_case_hostname_only in Hm as [Hnd _]. split; [| done].
      destruct Hc as [? | ?]; [done | congruence]. }
    assert (Hsame : filter (fun s => hostname s = h) (site <$> (annotate h p f :: others))
                    = site <$> (annotate h p f :: others)).
    { apply filter_all. intros s Hs. apply list_elem_of_fmap in Hs as (a & -> & Ha).
      by apply Hall. }
    pose proof (filter_Permutation (fun s => hostname s = h) _ _ Hperm) as Hph.
    rewrite Hsame, list_filter_filter_l, Honly in Hph by auto.
    apply Permutation_singleton_r in Hph.
    destruct others as [| ? ?]; [| discriminate].
    cbn in Hph. injection Hph as Ha.
    unfold pick_site. rewrite (bool_decide_eq_true_2 (_ = 1%nat)) by done.
    cbn. by rewrite Ha.
Qed.

(** X3. A default site that has the requested hostname is returned on
    every port for which no other site of that hostname is registered; the
    table holds at most one default site. *)
Theorem default_site_of_hostname_wins (h : string) (p : Z) (w : World) (d : Site) :
  (length (filter (fun s => is_default_site s = true) (site_table w)) <= 1)%nat ->
  d ∈ site_table w -> is_default_site d = true -> hostname d = h ->
  (forall s, s ∈ site_table w -> hostname s = h -> port s = p -> s = d) ->
  (get_site_for_hostname h p w).1 = Ok d.
Proof.
  intros Hone Hd Hdef Hh Hexact. rewrite get_site_for_hostname_result.
  set (rows := site_table w) in *.
  assert (Hcand : annotate h p d ∈ annotated_sites h p rows)
    by (apply elem_of_annotated_sites; eauto).
  remember (annotated_sites h p rows) as sites eqn:Heq. symmetry in Heq.
  destruct sites as [| first others]; [exfalso; exact (not_elem_of_nil _ Hcand) |].
  assert (Hle : site_match first <= site_match (annotate h p d))
    by (apply (first_is_best _ _ _ _ _ Heq); by rewrite Heq).
  assert (Hdm : site_match (annotate h p d) <= 1).
  { cbn. unfold match_case, MATCH_HOSTNAME_PORT, MATCH_HOSTNAME_DEFAULT.
    destruct (decide (hostname d = h /\ port d = p)); [lia |].
    rewrite decide_True by done. lia. }
  assert (Hf : first ∈ annotated_sites h p rows) by (rewrite Heq; left).
  apply elem_of_annotated_sites in Hf as (f & -> & Hfrow & _).
  pose proof (match_case_range h p f) as Hr. rewrite !elem_of_cons, elem_of_nil in Hr.
  cbn [annotate site_match] in Hle, Hdm.
  assert (Hr' : match_case h p f = MATCH_HOSTNAME_PORT
                \/ match_case h p f = MATCH_HOSTNAME_DEFAULT).
  { unfold MATCH_HOSTNAME_PORT, MATCH_HOSTNAME_DEFAULT, MATCH_DEFAULT, MATCH_HOSTNAME in *.
    lia. }
  assert (Hfd : f = d).
  { destruct Hr' as [Hr' | Hr'].
    - apply match_case_hostname_port in Hr' as [? ?]. by apply Hexact.
    - apply (default_site_unique rows); try done.
      apply (match_case_is_default h p). by left. }
  subst f. unfold pick_site. cbn [annotate site_match site].
  rewrite (bool_decide_eq_true_2 (match_case h p d ∈ _))
    by (rewrite !elem_of_cons; destruct Hr' as [-> | ->]; auto).
  by rewrite orb_true_r.
Qed.

(** ** More about Site.find_for_request *)

(** X5. A request that has no [_wagtail_site] yet and whose host can be
    read.  When the query accepts the request's port, [find_for_request]
    does not raise: one query is sent, the answer is stored on the request,
    and the answer is [None] exactly when the resolver finds no site for
    the host name and that port.  When the query refuses the port, its
    exception is not caught ([DoesNotExist] alone is) and comes out of
    [find_for_request], which then returns no request with an answer on
    it. *)
Theorem find_for_request_answers_None_when_unresolvable
        (request : HttpRequest) (host : string) (w : World) :
  _wagtail_site request = None ->
  get_host request = Ok host ->
  (forall number, port_value (get_port request) = Ok number ->
     exists found,
       find_for_request (Some request) w
       = (Ok (found, Some (setattr_wagtail_site request found)),
          with_site_queries (S (site_queries w)) w)
       /\ (found = None
           <-> unresolvable (split_domain_port host).1 number (site_table w))
       /\ (forall s, found = Some s ->
             (get_site_for_hostname (split_domain_port host).1 number w).1 = Ok s))
  /\ (forall e, port_value (get_port request) = Raise e -> is_DoesNotExist e = false ->
        (find_for_request (Some request) w).1 = Raise e).
Proof.
  intros Hattr Hhost.
  set (h := (split_domain_port host).1).
  unfold find_for_request. rewrite Hattr.
  unfold _find_for_request, bind, lift, try_except. rewrite Hhost. fold h.
  split.
  - intros p Hport. rewrite Hport.
    pose proof (unresolvable_iff h p (site_table w)) as Hun.
    pose proof (get_site_for_hostname_result h p w) as Hres.
    unfold get_site_for_hostname, bind, Site_objects, lift, ret in *. cbn [fst] in Hres.
    destruct (pick_site_cases (annotated_sites h p (site_table w)))
      as [(a & _ & Hpick) | Hpick]; rewrite Hpick in *.
    + exists (Some (site a)). split; [done |]. split.
      * split; [done |]. intros Hu. apply Hun in Hu. discriminate.
      * by intros s [= <-].
    + exists None. split; [done |]. split; [| done].
      split; [intros _; by apply Hun | done].
  - intros e Hport Hnot. by rewrite Hport, Hnot.
Qed.

(** ** More about the root-path cache *)

Lemma len_3_or_4 (r : site_record) : len r = 3 \/ len r = 4.
Proof. destruct r; auto. Qed.

Lemma no_legacy_record_Forall (l : list site_record) :
  has_legacy_record l = false -> Forall (fun r => len r = 4) l.
Proof.
  intros Hno. apply Forall_forall. intros r Hr.
  destruct (len_3_or_4 r) as [H3 | H4]; [| done].
  assert (Hyes : has_legacy_record l = true)
    by (apply has_legacy_record_Exists, Exists_exists; eauto).
  congruence.
Qed.

(** X10. Whatever the cache held, [get_site_root_paths] raises nothing,
    returns only four-field records, and leaves the cache answering with
    the very list it returned. *)
Theorem get_site_root_paths_returns_current_records (w : World) :
  exists l,
    (get_site_root_paths w).1 = Ok l
    /\ Forall (fun r => len r = 4) l
    /\ (cache_get "wagtail_site_root_paths" (get_site_root_paths w).2).1 = Ok (Some l).
Proof.
  destruct (get_site_root_paths_cases w) as [-> | (cached & Hr & Hlegacy & ->)].
  - exists (compute_root_paths (site_table w)). split; [done |]. split.
    + apply no_legacy_record_Forall, compute_root_paths_current.
    + unfold recomputed, cache_get. cbn [fst snd with_cache cache now with_site_queries].
      rewrite lookup_insert_eq. by rewrite decide_True by lia.
  - exists cached. split; [done |]. split; [by apply no_legacy_record_Forall | done].
Qed.

(** X12. With a coherent cache the list holds exactly the records of the
    sites of the table: for each site one record per translation of its
    root page when translations are enabled, else the one of the root page
    itself, each with the key and base URL of its site; without
    translations the list is as long as the table. *)
Theorem root_paths_cover_the_table (w : World) :
  cache_coherent w ->
  exists l,
    (get_site_root_paths w).1 = Ok (Current <$> l)
    /\ (forall r, r ∈ l <->
          exists s page,
            s ∈ site_table w
            /\ page ∈ (if i18n_enabled then get_translations (root_page s)
                       else [root_page s])
            /\ r = make_SiteRootPath s page)
    /\ (i18n_enabled = false -> length l = length (site_table w)).
Proof.
  intros Hco. exists (ordered_sites (site_table w) ≫= site_root_paths).
  split; [by rewrite get_site_root_paths_coherent, compute_root_paths_bind |].
  assert (Hentries : forall s, site_root_paths s
            = make_SiteRootPath s <$> (if i18n_enabled then get_translations (root_page s)
                                       else [root_page s])).
  { intros s. unfold site_root_paths. by destruct i18n_enabled. }
  split.
  - intros r. rewrite list_elem_of_bind. split.
    + intros (s & Hr & Hs). rewrite ordered_sites_perm in Hs.
      rewrite Hentries in Hr. apply list_elem_of_fmap in Hr as (page & -> & Hpage).
      by exists s, page.
    + intros (s & page & Hs & Hpage & ->). exists s. split.
      * rewrite Hentries. apply list_elem_of_fmap. by exists page.
      * by rewrite ordered_sites_perm.
  - intros Hoff. rewrite <- (Permutation_length (ordered_sites_perm (site_table w))).
    induction (ordered_sites (site_table w)) as [| s sites IH]; [done |].
    rewrite bind_cons, length_app, IH, Hentries, Hoff. done.
Qed.

(** X13. The stored list outlives changes of the table that do not evict
    it: for the hour after a call that computed the list, a later call
    returns that list and sends no query, whatever the table has become;
    from the end of the hour on, the next call computes the list from the
    table as it then is. *)
Theorem stored_list_is_served_for_an_hour (w : World) (rows' : list Site) (dt : Z) :
  (cache_get "wagtail_site_root_paths" w).1 = Ok None ->
  0 <= dt ->
  let later := advance dt (with_site_table rows' (get_site_root_paths w).2) in
  (dt < 3600 ->
   get_site_root_paths later = (Ok (compute_root_paths (site_table w)), later))
  /\ (3600 <= dt ->
      (get_site_root_paths later).1 = Ok (compute_root_paths rows')
      /\ site_queries (get_site_root_paths later).2 = S (site_queries later)).
Proof.
  intros Hmiss Hdt later. subst later.
  rewrite (get_site_root_paths_miss w Hmiss). unfold recomputed. cbn [snd].
  split.
  - intros Hlt. apply get_site_root_paths_hit; [| apply compute_root_paths_current].
    unfold cache_get, advance, with_site_table, with_cache, with_site_queries.
    cbn [fst cache now]. rewrite lookup_insert_eq. by rewrite decide_True by lia.
  - intros Hge. rewrite get_site_root_paths_miss; [done |].
    unfold cache_get, advance, with_site_table, with_cache, with_site_queries.
    cbn [fst cache now]. rewrite lookup_insert_eq. by rewrite decide_False by lia.
Qed.

(** ** More about Site.clean_fields *)

(** X14. What else validation does: an error of the inherited field
    validation comes out first, before the table is read; when it passes, a
    site that does not ask to be the default validates against every table
    with at most one default site, every site validates when there is no
    default site, and with two or more default sites in the table every
    validation raises [MultipleObjectsReturned]; the table is never
    changed. *)
Theorem clean_fields_outcomes (self : Site) (exclude : option (list string)) (w : World) :
  (forall e, super_clean_fields self exclude = Raise e ->
     clean_fields self exclude w = (Raise e, w))
  /\ (super_clean_fields self exclude = Ok tt ->
      (is_default_site self = false ->
       (length (filter (fun s => is_default_site s = true) (site_table w)) <= 1)%nat ->
       (clean_fields self exclude w).1 = Ok tt)
      /\ (filter (fun s => is_default_site s = true) (site_table w) = [] ->
          (clean_fields self exclude w).1 = Ok tt)
      /\ ((2 <= length (filter (fun s => is_default_site s = true) (site_table w)))%nat ->
          (clean_fields self exclude w).1 = Raise MultipleObjectsReturned))
  /\ site_table (clean_fields self exclude w).2 = site_table w.
Proof.
  split; [| split].
  - intros e He. unfold clean_fields, bind, lift. by rewrite He.
  - intros Hsuper. rewrite clean_fields_unfold by done. unfold objects_get.
    destruct (filter _ (site_table w)) as [| a [| b l]]; cbn [length].
    + split; [done | split; [done | lia]].
    + split; [by intros -> _ | split; [done | lia]].
    + split; [lia | done].
  - unfold clean_fields, bind, lift, Site_objects.
    destruct (super_clean_fields self exclude) as [[] | e]; [| done].
    destruct (objects_get _ (site_table w)) as [default | e]; cbn.
    + by destruct (is_default_site self && bool_decide (pk self <> pk default)).
    + by destruct e.
Qed.

(** ** More about the site-user model *)

(** X15. [get_site_user_model()] answers with a model exactly when the
    setting has the shape [app_label.model_name] and the registry knows
    that model; every failure is an [ImproperlyConfigured]: no
    [ValueError], [LookupError] or [AttributeError] gets out. *)
Theorem get_site_user_model_outcomes :
  (forall m, get_site_user_model = Ok m <->
     exists setting label model,
       SITE_USER_MODEL settings = Some setting
       /\ split "." setting = [label; model]
       /\ registry label model = Some m)
  /\ (forall e, get_site_user_model = Raise e ->
        exists message, e = ImproperlyConfigured message).
Proof.
  unfold get_site_user_model, apps_get_model. split.
  - intros m. split.
    + destruct (SITE_USER_MODEL settings) as [setting |] eqn:Hset; [| done].
      destruct (split "." setting) as [| label [| model [| ? ?]]] eqn:Hsplit; try done.
      destruct (registry label model) as [m' |] eqn:Hreg; [| done].
      intros [= <-]. by exists setting, label, model.
    + intros (setting & label & model & -> & -> & ->). done.
  - intros e. destruct (SITE_USER_MODEL settings) as [setting |]; [| intros [= <-]; eauto].
    destruct (split "." setting) as [| label [| model [| ? ?]]];
      try (intros [= <-]; eauto).
    destruct (registry label model); [done | intros [= <-]; eauto].
Qed.

Lemma AbstractSiteUser_find_for_request_resolved
      (request : HttpRequest) (w w1 : World) (model : ModelClass) :
  resolve_SiteUser w = (Ok model, w1) ->
  (AbstractSiteUser_find_for_request request w).2 = w1.
Proof.
  intros Hres. unfold AbstractSiteUser_find_for_request, bind. rewrite Hres.
  unfold ret, raise. cbv zeta.
  destruct (session request !! "site_id") as [v |]; [destruct (decide (v = 0)) |];
    try (destruct (last (user_siteusers (user request))); [| done]);
    (destruct (filter _ (siteuser_objects model)) as [| row [| ? ?]]; [done | | done]);
    repeat (case_match; try done).
Qed.

(** X16. Once the model is resolved, [AbstractSiteUser.find_for_request]
    checks the membership it is asked for.  A session that names a site the
    user has no site-user row for raises [DoesNotExist]; a user without any
    site-user row and without a session site raises [AttributeError]; and
    a user whose attached site user is of the session's site gets that
    site user back, the request untouched. *)
Theorem site_user_lookup_paths (request : HttpRequest) (w w1 : World) (model : ModelClass) :
  resolve_SiteUser w = (Ok model, w1) ->
  (forall v, session request !! "site_id" = Some v -> v <> 0 ->
     filter (fun r => su_site_id r = v /\ su_user_id r = user_id (user request))
            (siteuser_objects model) = [] ->
     AbstractSiteUser_find_for_request request w = (Raise DoesNotExist, w1))
  /\ ((session request !! "site_id" = None \/ session request !! "site_id" = Some 0) ->
      user_siteusers (user request) = [] ->
      AbstractSiteUser_find_for_request request w = (Raise AttributeError, w1))
  /\ (forall v row current,
        session request !! "site_id" = Some v -> v <> 0 ->
        filter (fun r => su_site_id r = v /\ su_user_id r = user_id (user request))
               (siteuser_objects model) = [row] ->
        site_user (user request) = Some (Some current) ->
        su_site_id current = v ->
        AbstractSiteUser_find_for_request request w = (Ok (Some current, request), w1)).
Proof.
  intros Hres. unfold AbstractSiteUser_find_for_request, bind. rewrite Hres.
  unfold ret, raise. repeat split.
  - intros v -> Hv Hnone. rewrite decide_False by done.
    cbv beta iota zeta. by rewrite Hnone.
  - intros [-> | ->] ->; [done |]. by rewrite decide_True.
  - intros v row current -> Hv Hrow Hattr Hsite.
    rewrite decide_False by done. cbv beta iota zeta. rewrite Hrow, Hattr.
    change (default None (Some (Some current))) with (Some current). cbv beta iota.
    rewrite decide_False by (intros Hne; by apply Hne). by rewrite Hattr.
Qed.
End Sites.

(** ** Natural keys *)

Lemma filter_key_at_most_one {A K} `{EqDecision K} (key : A -> K) (k : K) (rows : list A) :
  NoDup (key <$> rows) ->
  (length (filter (fun r => key r = k) rows) <= 1)%nat.
Proof.
  induction rows as [| r rows IH]; intros Hnd; [cbn; lia |].
  rewrite fmap_cons in Hnd. apply NoDup_cons in Hnd as [Hnotin Hnd].
  rewrite filter_cons. destruct (decide (key r = k)) as [Hk | Hk]; [| by apply IH].
  assert (Hnone : filter (fun r => key r = k) rows = []).
  { destruct (filter (fun r => key r = k) rows) as [| x l] eqn:Hf; [done |].
    exfalso. apply Hnotin.
    assert (Hx : x ∈ filter (fun r => key r = k) rows) by (rewrite Hf; left).
    apply list_elem_of_filter in Hx as [Hxk Hx].
    apply list_elem_of_fmap. exists x. split; [congruence | done]. }
  rewrite Hnone. cbn. lia.
Qed.

Lemma filter_key_of_row {A K} `{EqDecision K} (key : A -> K) (rows : list A) (x : A) :
  NoDup (key <$> rows) -> x ∈ rows ->
  filter (fun r => key r = key x) rows = [x].
Proof.
  intros Hnd Hx. pose proof (filter_key_at_most_one key (key x) rows Hnd) as Hlen.
  assert (Hin : x ∈ filter (fun r => key r = key x) rows)
    by (by apply list_elem_of_filter).
  destruct (filter (fun r => key r = key x) rows) as [| y [| z l]].
  - by apply not_elem_of_nil in Hin.
  - apply list_elem_of_singleton in Hin. by subst.
  - cbn in Hlen. lia.
Qed.

Lemma natural_key_filter (h : string) (p : Z) (rows : list Site) :
  filter (fun s => hostname s = h /\ port s = p) rows
  = filter (fun s => natural_key s = (h, p)) rows.
Proof.
  apply list_filter_iff. intros s. unfold natural_key.
  split; [intros [-> ->]; done | intros [= -> ->]; done].
Qed.

(** X7. Natural keys round-trip: with [(hostname, port)] unique, looking
    a site of the table up by its own natural key returns that site; a key
    no site has raises [DoesNotExist]; [MultipleObjectsReturned] cannot
    happen. *)
Theorem get_by_natural_key_round_trip (w : World) :
  NoDup (natural_key <$> site_table w) ->
  (forall s, s ∈ site_table w ->
     (get_by_natural_key (natural_key s).1 (natural_key s).2 w).1 = Ok s)
  /\ (forall h p, (forall s, s ∈ site_table w -> natural_key s <> (h, p)) ->
        (get_by_natural_key h p w).1 = Raise DoesNotExist)
  /\ (forall h p, (get_by_natural_key h p w).1 = Raise DoesNotExist
                  \/ exists s, s ∈ site_table w /\ (get_by_natural_key h p w).1 = Ok s).
Proof.
  intros Hnd.
  assert (Hget : forall h p, (get_by_natural_key h p w).1
                 = match filter (fun s => natural_key s = (h, p)) (site_table w) with
                   | [] => Raise DoesNotExist
                   | [s] => Ok s
                   | _ :: _ :: _ => Raise MultipleObjectsReturned
                   end).
  { intros h p. unfold get_by_natural_key, bind, Site_objects, lift, objects_get.
    cbn [fst]. by rewrite natural_key_filter. }
  repeat split.
  - intros s Hs. change (natural_key s).1 with (hostname s).
    change (natural_key s).2 with (port s). rewrite Hget.
    change (hostname s, port s) with (natural_key s).
    by rewrite (filter_key_of_row natural_key).
  - intros h p Hnone. rewrite Hget.
    destruct (filter (fun s => natural_key s = (h, p)) (site_table w)) as [| x l] eqn:Hf;
      [done |].
    assert (Hx : x ∈ filter (fun s => natural_key s = (h, p)) (site_table w))
      by (rewrite Hf; left).
    apply list_elem_of_filter in Hx as [Hk Hx]. by destruct (Hnone x Hx).
  - intros h p. rewrite Hget.
    pose proof (filter_key_at_most_one natural_key (h, p) (site_table w) Hnd) as Hlen.
    destruct (filter (fun s => natural_key s = (h, p)) (site_table w))
      as [| x [| y l]] eqn:Hf.
    + by left.
    + right. exists x. split; [| done].
      assert (Hx : x ∈ filter (fun s => natural_key s = (h, p)) (site_table w))
        by (rewrite Hf; left).
      by apply list_elem_of_filter in Hx as [_ Hx].
    + cbn in Hlen. lia.
Qed.

(** X8. The same for groups: with [(name, site)] unique, the natural key
    of a group of the table finds that group, and a lookup never meets two
    rows. *)
Theorem SiteGroup_natural_key_round_trip (rows : list SiteGroup) :
  NoDup (SiteGroup_natural_key <$> rows) ->
  (forall g, g ∈ rows ->
     SiteGroup_get_by_natural_key rows (SiteGroup_natural_key g).1 (SiteGroup_natural_key g).2
     = Ok g)
  /\ (forall n k, (forall g, g ∈ rows -> SiteGroup_natural_key g <> (n, k)) ->
        SiteGroup_get_by_natural_key rows n k = Raise DoesNotExist)
  /\ (forall n k, SiteGroup_get_by_natural_key rows n k = Raise DoesNotExist
                  \/ exists g, g ∈ rows /\ SiteGroup_get_by_natural_key rows n k = Ok g).
Proof.
  intros Hnd.
  assert (Hget : forall n k, SiteGroup_get_by_natural_key rows n k
                 = match filter (fun g => SiteGroup_natural_key g = (n, k)) rows with
                   | [] => Raise DoesNotExist
                   | [g] => Ok g
                   | _ :: _ :: _ => Raise MultipleObjectsReturned
                   end).
  { intros n k. unfold SiteGroup_get_by_natural_key.
    rewrite (list_filter_iff _ (fun g => SiteGroup_natural_key g = (n, k))); [done |].
    intros g. unfold SiteGroup_natural_key.
    split; [intros [-> ->]; done | intros [= -> ->]; done]. }
  repeat split.
  - intros g Hg. change (SiteGroup_natural_key g).1 with (name g).
    change (SiteGroup_natural_key g).2 with (group_site_id g). rewrite Hget.
    change (name g, group_site_id g) with (SiteGroup_natural_key g).
    by rewrite (filter_key_of_row SiteGroup_natural_key).
  - intros n k Hnone. rewrite Hget.
    destruct (filter (fun g => SiteGroup_natural_key g = (n, k)) rows) as [| x l] eqn:Hf;
      [done |].
    assert (Hx : x ∈ filter (fun g => SiteGroup_natural_key g = (n, k)) rows)
      by (rewrite Hf; left).
    apply list_elem_of_filter in Hx as [Hk Hx]. by destruct (Hnone x Hx).
  - intros n k. rewrite Hget.
    pose proof (filter_key_at_most_one SiteGroup_natural_key (n, k) rows Hnd) as Hlen.
    destruct (filter (fun g => SiteGroup_natural_key g = (n, k)) rows) as [| x [| y l]] eqn:Hf.
    + by left.
    + right. exists x. split; [| done].
      assert (Hx : x ∈ filter (fun g => SiteGroup_natural_key g = (n, k)) rows)
        by (rewrite Hf; left).
      by apply list_elem_of_filter in Hx as [_ Hx].
    + cbn in Hlen. lia.
Qed.

(** ** Display names *)

Lemma string_app_nil_r (s : string) : s ++ "" = s.
Proof.
  induction s as [| c s IH]; [done |].
  change (String c (s ++ "") = String c s). by rewrite IH.
Qed.

Lemma string_app_assoc (s t u : string) : (s ++ t) ++ u = s ++ t ++ u.
Proof.
  induction s as [| c s IH]; [done |].
  change (String c ((s ++ t) ++ u) = String c (s ++ t ++ u)). by rewrite IH.
Qed.

(** X9. For a site without a name that is not the default site and is
    not on port 443, the base URL is ["http://"] followed by the text the
    site is displayed with; the default site's text ends in [" [default]"],
    and a name, when there is one, replaces host name and port. *)
Theorem root_url_and_display_name (self : Site) :
  (site_name self = "" -> is_default_site self = false -> port self <> 443 ->
   root_url self = "http://" ++ Site__str__ self)
  /\ (site_name self = "" -> is_default_site self = true -> port self <> 443 ->
      "http://" ++ Site__str__ self = root_url self ++ " [default]")
  /\ (site_name self <> "" ->
      Site__str__ self
      = site_name self ++ (if is_default_site self then " [default]" else "")).
Proof.
  unfold root_url, Site__str__. cbv zeta.
  change (" [" ++ "default" ++ "]") with " [default]". repeat split.
  - intros -> -> H443. rewrite bool_decide_eq_false_2 by (intros H; by apply H).
    rewrite (decide_False (P := port self = 443)) by done.
    destruct (decide (port self = 80)).
    + by rewrite !string_app_nil_r.
    + by rewrite string_app_nil_r.
  - intros -> -> H443. rewrite bool_decide_eq_false_2 by (intros H; by apply H).
    rewrite (decide_False (P := port self = 443)) by done.
    destruct (decide (port self = 80)).
    + change ("" ++ " [default]") with " [default]". by rewrite string_app_assoc.
    + by rewrite !string_app_assoc.
  - intros Hname. by rewrite bool_decide_eq_true_2.
Qed.

(** ** The site-user model is looked up once *)

(** X17. The module keeps the model it resolved: a call that finds the
    global [SiteUser] empty and resolves the setting leaves the model in
    the global, even when the call then fails; a failed resolution leaves
    the global empty, so the next call tries again; and a call that finds a
    model there does not resolve the setting again: [apps.get_model] is not
    asked, so under the same settings the call answers the same whatever
    the registry has become, also when the setting could no longer be
    resolved. *)
Theorem site_user_model_is_resolved_once
        (settings : Settings)
        (registry1 registry2 : string -> string -> option ModelClass)
        (siteuser_objects : ModelClass -> list SiteUserRow)
        (set_current_session_project : HttpRequest -> SiteUserRow -> HttpRequest)
        (request : HttpRequest) (w : World) :
  (forall m, SiteUser w = None -> get_site_user_model settings registry1 = Ok m ->
     SiteUser (AbstractSiteUser_find_for_request settings registry1 siteuser_objects
                 set_current_session_project request w).2 = Some m)
  /\ (forall e, SiteUser w = None -> get_site_user_model settings registry1 = Raise e ->
        AbstractSiteUser_find_for_request settings registry1 siteuser_objects
          set_current_session_project request w = (Raise e, w))
  /\ (forall m, SiteUser w = Some m ->
        AbstractSiteUser_find_for_request settings registry1 siteuser_objects
          set_current_session_project request w
        = AbstractSiteUser_find_for_request settings registry2 siteuser_objects
            set_current_session_project request w
        /\ SiteUser (AbstractSiteUser_find_for_request settings registry1 siteuser_objects
                       set_current_session_project request w).2 = Some m).
Proof.
  split; [| split].
  - intros m Hnone Hok.
    rewrite (AbstractSiteUser_find_for_request_resolved settings registry1 _ _ request w
               (with_SiteUser (Some m) w) m); [done |].
    unfold resolve_SiteUser. by rewrite Hnone, Hok.
  - intros e Hnone Hraise.
    unfold AbstractSiteUser_find_for_request, bind, resolve_SiteUser.
    by rewrite Hnone, Hraise.
  - intros m Hsome. split.
    + unfold AbstractSiteUser_find_for_request, bind, resolve_SiteUser.
      by rewrite Hsome.
    + rewrite (AbstractSiteUser_find_for_request_resolved settings registry1 _ _ request w
                 w m); [done |].
      unfold resolve_SiteUser. by rewrite Hsome.
Qed.

(** ** Permissions of a site user *)

Section Permissions.

(** The objects permissions may be asked about, and Django's
    [_user_get_permissions], [_user_has_perm] and [_user_has_module_perms],
    which put the question to the authentication backends. *)
Variable Obj : Type.
Variable _user_get_permissions : SiteUserRow -> option Obj -> string -> list string.
Variable _user_has_perm : SiteUserRow -> string -> option Obj -> bool.
Variable _user_has_module_perms : SiteUserRow -> string -> bool.

Definition get_site_user_permissions (self : SiteUserRow) (obj : option Obj) : list string :=
  _user_get_permissions self obj "user".

Definition get_site_group_permissions (self : SiteUserRow) (obj : option Obj) : list string :=
  _user_get_permissions self obj "group".

Definition get_all_permissions (self : SiteUserRow) (obj : option Obj) : list string :=
  _user_get_permissions self obj "all".

Definition has_perm (self : SiteUserRow) (perm : string) (obj : option Obj) : bool :=
  if su_is_active self && su_is_superuser self then true
  else _user_has_perm self perm obj.

(** The [ValueError] carries the text "perm_list must be an iterable of
    permissions." *)
Definition has_perms (self : SiteUserRow) (perm_list : perm_list_value) (obj : option Obj)
  : result bool :=
  match perm_list with
  | Permissions perms => Ok (forallb (fun perm => has_perm self perm obj) perms)
  | PermString _ | NotIterable => Raise ValueError
  end.

Definition has_module_perms (self : SiteUserRow) (label : string) : bool :=
  if su_is_active self && su_is_superuser self then true
  else _user_has_module_perms self label.

(** X18. An active superuser holds every permission, every list of
    permissions and every module without the backends being asked; for
    every other site user, a superuser who is not active among them, the
    backends alone decide. *)
Theorem superuser_bypass (self : SiteUserRow) :
  (su_is_active self = true -> su_is_superuser self = true ->
   (forall perm obj, has_perm self perm obj = true)
   /\ (forall perms obj, has_perms self (Permissions perms) obj = Ok true)
   /\ (forall label, has_module_perms self label = true))
  /\ (su_is_active self = false \/ su_is_superuser self = false ->
      (forall perm obj, has_perm self perm obj = _user_has_perm self perm obj)
      /\ (forall label, has_module_perms self label = _user_has_module_perms self label)).
Proof.
  unfold has_perms, has_perm, has_module_perms. split.
  - intros -> ->. cbn. repeat split. intros perms obj. f_equal.
    induction perms as [| perm perms IH]; [done | by cbn].
  - intros [-> | ->]; rewrite ?andb_false_r; done.
Qed.

(** X19. [has_perms] wants an iterable that is not a string: a string or
    something that cannot be iterated raises [ValueError]; for a list the
    answer is true exactly when [has_perm] is true of each permission, so
    the empty list is granted to everyone and a list put together from two
    is granted when both are. *)
Theorem has_perms_is_all_of_has_perm (self : SiteUserRow) (obj : option Obj) :
  (forall s, has_perms self (PermString s) obj = Raise ValueError)
  /\ has_perms self NotIterable obj = Raise ValueError
  /\ (forall perms, exists granted,
        has_perms self (Permissions perms) obj = Ok granted
        /\ (granted = true <-> forall perm, perm ∈ perms -> has_perm self perm obj = true))
  /\ has_perms self (Permissions []) obj = Ok true
  /\ (forall perms1 perms2 granted1 granted2,
        has_perms self (Permissions perms1) obj = Ok granted1 ->
        has_perms self (Permissions perms2) obj = Ok granted2 ->
        has_perms self (Permissions (perms1 ++ perms2)) obj = Ok (granted1 && granted2)).
Proof.
  unfold has_perms. repeat split; try done.
  - intros perms. eexists. split; [done |].
    rewrite forallb_forall. split; intros Hall perm Hperm; apply Hall.
    + by apply list_elem_of_In.
    + by apply list_elem_of_In.
  - intros perms1 perms2 granted1 granted2 [= <-] [= <-]. f_equal.
    apply forallb_app.
Qed.

End Permissions.

(** ** The theorems at concrete inputs *)

(** A default site of another hostname and one site of the requested
    hostname. *)
Lemma default_by_exclusion_tie_break_witness :
  site_match <$> head (annotated_sites "example.com" 80 (site_table default_and_one_world))
    = Some MATCH_DEFAULT
  /\ (length (filter (fun s => is_default_site s = true) (site_table default_and_one_world))
      <= 1)%nat
  /\ exists d,
       filter (fun s => is_default_site s = true) (site_table default_and_one_world) = [d]
       /\ hostname d <> "example.com"
       /\ (forall only,
              filter (fun s => hostname s = "example.com") (site_table default_and_one_world)
                = [only] ->
              (get_site_for_hostname "example.com" 80 default_and_one_world).1 = Ok only)
       /\ (length (filter (fun s => hostname s = "example.com")
                     (site_table default_and_one_world)) <> 1%nat ->
           (get_site_for_hostname "example.com" 80 default_and_one_world).1 = Ok d).
Proof.
  split; [reflexivity |]. split; [vm_compute; lia |].
  apply (default_by_exclusion_tie_break "example.com" 80 default_and_one_world).
  - reflexivity.
  - vm_compute. lia.
Defined.

(** The site of ["example.com"] is the one returned there. *)
Example default_and_one_resolves_to_hostname_site :
  (get_site_for_hostname "example.com" 80 default_and_one_world).1
  = Ok (example_site 2 "example.com" 8000 false).
Proof. reflexivity. Qed.

(** With two default sites in the table the second candidate is a default
    site as well, and the site of the hostname is not the one returned: the
    rule of C1 needs the table to hold at most one default site. *)
Example two_default_sites_hide_the_hostname_site :
  site_match <$> head (annotated_sites "example.com" 80 (site_table two_defaults_world))
    = Some MATCH_DEFAULT
  /\ filter (fun s => hostname s = "example.com") (site_table two_defaults_world)
     = [example_site 3 "example.com" 8000 false]
  /\ exists d, is_default_site d = true
               /\ (get_site_for_hostname "example.com" 80 two_defaults_world).1 = Ok d.
Proof.
  split; [reflexivity |]. split; [reflexivity |].
  eexists. split; [| reflexivity]. reflexivity.
Qed.

(** C2, as stated, fails here: two sites have the requested hostname,
    yet the resolver reports [DoesNotExist]. *)
Lemma hostname_matches_yet_not_found :
  (exists s, s ∈ site_table two_ports_world /\ hostname s = "example.com")
  /\ (get_site_for_hostname "example.com" 80 two_ports_world).1 = Raise DoesNotExist.
Proof.
  split; [| reflexivity].
  exists (example_site 1 "example.com" 8000 false). split; [left | reflexivity].
Qed.

(** Two sites of one hostname on ports 8000 and 8001. *)
Lemma exact_hostname_port_match_wins_witness :
  let T1 := example_site 1 "example.com" 8000 false in
  let T2 := example_site 2 "example.com" 8001 false in
  (get_site_for_hostname "example.com" 8000 two_ports_world).1 = Ok T1
  /\ (get_site_for_hostname "example.com" 8001 two_ports_world).1 = Ok T2
  /\ (forall T, T ∈ site_table two_ports_world ->
                (get_site_for_hostname (hostname T) (port T) two_ports_world).1 = Ok T).
Proof.
  apply (exact_hostname_port_match_wins two_ports_world
           (example_site 1 "example.com" 8000 false)
           (example_site 2 "example.com" 8001 false)).
  - apply (bool_decide_unpack _). vm_compute. exact I.
  - left.
  - right. left.
  - discriminate.
  - reflexivity.
  - cbn. lia.
Defined.

(** A cache written by Wagtail 2.10 in front of a table of one site. *)
Lemma legacy_cache_is_recomputed_witness :
  let get_translations := fun _ : Page => [] in
  let fresh := compute_root_paths get_translations no_settings (site_table legacy_cache_world) in
  let w' := (get_site_root_paths get_translations no_settings legacy_cache_world).2 in
  fresh = [Current {| site_id := Some 1; root_path := "/home/";
                      root_url_of := "http://example.com"; language_code_of := "en" |}]
  /\ (get_site_root_paths get_translations no_settings legacy_cache_world).1 = Ok fresh
  /\ site_queries w' = S (site_queries legacy_cache_world)
  /\ site_table w' = site_table legacy_cache_world
  /\ cache w' !! "wagtail_site_root_paths" = Some (fresh, now legacy_cache_world + 3600)
  /\ (forall dt, 0 <= dt < 3600 ->
        (cache_get "wagtail_site_root_paths" (advance dt w')).1 = Ok (Some fresh))
  /\ (forall dt, 3600 <= dt ->
        (cache_get "wagtail_site_root_paths" (advance dt w')).1 = Ok None).
Proof.
  split; [reflexivity |].
  apply (legacy_cache_is_recomputed (fun _ => []) no_settings legacy_cache_world
           [Legacy (Some 1) "/home/" "http://example.com"]).
  - reflexivity.
  - left. reflexivity.
Defined.



(** There the blog's deeper root comes first, then the default site, then
    the other site of the same root. *)
Example root_paths_world_order :
  (get_site_root_paths (fun _ => []) no_settings root_paths_world).1
  = Ok [Current {| site_id := Some 3; root_path := "/home/blog/";
                   root_url_of := "https://blog.example.com"; language_code_of := "en" |};
        Current {| site_id := Some 2; root_path := "/home/";
                   root_url_of := "http://example.com"; language_code_of := "en" |};
        Current {| site_id := Some 1; root_path := "/home/";
                   root_url_of := "http://a.example.com:8000"; language_code_of := "en" |}].
Proof. reflexivity. Qed.

(** A new site that asks to be the default while [other.com] is, and
    [other.com] itself. *)
Lemma second_default_site_is_rejected_witness :
  let super_clean_fields := fun (_ : Site) (_ : option (list string)) => Ok tt in
  let d := example_site 1 "other.com" 80 true in
  let self := {| pk := None; hostname := "example.com"; port := 80; site_name := "";
                 root_page := home_page; is_default_site := true |} in
  (clean_fields super_clean_fields self None default_and_one_world).1
  = Raise (ValidationError "is_default_site"
      ["other.com is already configured as the default site. You must unset that before you can save this site as default."])
  /\ (clean_fields super_clean_fields d None default_and_one_world).1 = Ok tt.
Proof.
  intros super_clean_fields d self.
  pose proof (second_default_site_is_rejected super_clean_fields self d None
                default_and_one_world eq_refl eq_refl) as [Hnew _].
  pose proof (second_default_site_is_rejected super_clean_fields d d None
                default_and_one_world eq_refl eq_refl) as [_ Hsame].
  split; [apply Hnew; [reflexivity | discriminate] | apply Hsame; reflexivity].
Defined.

(** C4, as stated, fails here: the setting is not present, loading the
    module raises nothing and leaves [SiteUser] unresolved, and the
    configuration error is raised by the first request that asks for the
    site user. *)
Lemma missing_site_user_model_is_reported_on_first_use :
  let registry := fun _ _ : string => None in
  let w := (module_init (world_of [])).2 in
  (module_init (world_of [])).1 = Ok tt
  /\ SiteUser w = None
  /\ (AbstractSiteUser_find_for_request no_settings registry (fun _ => [])
        (fun request _ => request) anonymous_request w).1
     = Raise (ImproperlyConfigured
         "Please configure settings.SITE_USER_MODEL             that should subclass the AbstractSiteUser").
Proof. repeat split. Qed.

(** Ports 80, 443 and 8000. *)
Lemma root_url_by_port_witness :
  root_url (example_site 1 "example.com" 80 false) = "http://example.com"
  /\ root_url (example_site 1 "example.com" 443 false) = "https://example.com"
  /\ root_url (example_site 1 "example.com" 8000 false) = "http://example.com:8000".
Proof.
  pose proof (root_url_by_port (example_site 1 "example.com" 80 false)) as (H80 & _ & _).
  pose proof (root_url_by_port (example_site 1 "example.com" 443 false)) as (_ & H443 & _).
  pose proof (root_url_by_port (example_site 1 "example.com" 8000 false)) as (_ & _ & Hother).
  split; [exact (H80 eq_refl) |]. split; [exact (H443 eq_refl) |].
  apply Hother; discriminate.
Defined.

(** The three misconfigurations, each with its message. *)
Lemma misconfigured_site_user_model_witness :
  let registry := fun _ _ : string => None in
  get_site_user_model no_settings registry
  = Raise (ImproperlyConfigured
      "Please configure settings.SITE_USER_MODEL             that should subclass the AbstractSiteUser")
  /\ get_site_user_model
       {| WAGTAIL_I18N_ENABLED := None; SITE_USER_MODEL := Some "siteuser" |} registry
     = Raise (ImproperlyConfigured "settings must be of the form 'app_label.model_name'")
  /\ get_site_user_model
       {| WAGTAIL_I18N_ENABLED := None; SITE_USER_MODEL := Some "accounts.SiteUser" |} registry
     = Raise (ImproperlyConfigured
         "settings refers to model 'accounts.SiteUser' that has not been installed").
Proof.
  intros registry.
  pose proof (misconfigured_site_user_model_raises_on_first_use
                no_settings registry (fun _ => []) (fun request _ => request))
    as (Hmissing & _).
  pose proof (misconfigured_site_user_model_raises_on_first_use
                {| WAGTAIL_I18N_ENABLED := None; SITE_USER_MODEL := Some "siteuser" |}
                registry (fun _ => []) (fun request _ => request))
    as (_ & Hshape & _).
  pose proof (misconfigured_site_user_model_raises_on_first_use
                {| WAGTAIL_I18N_ENABLED := None; SITE_USER_MODEL := Some "accounts.SiteUser" |}
                registry (fun _ => []) (fun request _ => request))
    as (_ & _ & Hinstalled & _).
  split; [exact (Hmissing eq_refl) |]. split.
  - apply (Hshape "siteuser"); [reflexivity | vm_compute; discriminate].
  - apply (Hinstalled "accounts.SiteUser" "accounts" "SiteUser"); reflexivity.
Defined.

(** With translations the records of a site stay together at the place of
    their site; the path of a translated root is not itself a key of the
    order. *)
Example translated_roots_follow_their_site :
  let get_translations := fun page : Page =>
    if decide (url_path page = "/home/")
    then [page; {| page_id := 9; url_path := "/accueil/"; language_code := "fr" |}]
    else [page] in
  let i18n := {| WAGTAIL_I18N_ENABLED := Some true; SITE_USER_MODEL := None |} in
  (get_site_root_paths get_translations i18n
     (world_of [ {| pk := Some 1; hostname := "example.com"; port := 80; site_name := "";
                    root_page := home_page; is_default_site := true |};
                 {| pk := Some 2; hostname := "blog.example.com"; port := 80; site_name := "";
                    root_page := {| page_id := 5; url_path := "/blog/"; language_code := "en" |};
                    is_default_site := false |} ])).1
  = Ok [Current {| site_id := Some 1; root_path := "/home/";
                   root_url_of := "http://example.com"; language_code_of := "en" |};
        Current {| site_id := Some 1; root_path := "/accueil/";
                   root_url_of := "http://example.com"; language_code_of := "fr" |};
        Current {| site_id := Some 2; root_path := "/blog/";
                   root_url_of := "http://blog.example.com"; language_code_of := "en" |}].
Proof. reflexivity. Qed.

(** ** The further theorems at concrete inputs *)

(** The only site of ["example.com"] is on port 8000; it answers on 443. *)
Lemma only_site_of_hostname_is_returned_witness :
  (get_site_for_hostname "example.com" 443 default_and_one_world).1
  = Ok (example_site 2 "example.com" 8000 false).
Proof.
  apply only_site_of_hostname_is_returned.
  - vm_compute. lia.
  - reflexivity.
Defined.

(** Port 9000 of the default site's hostname goes to the default site. *)
Lemma default_site_of_hostname_wins_witness :
  (get_site_for_hostname "example.com" 9000 default_with_sibling_world).1
  = Ok (example_site 1 "example.com" 80 true).
Proof.
  apply default_site_of_hostname_wins.
  - vm_compute. lia.
  - left.
  - reflexivity.
  - reflexivity.
  - intros s Hs _ Hport. cbn in Hs.
    rewrite !elem_of_cons, elem_of_nil in Hs.
    destruct Hs as [-> | [-> | []]]; discriminate.
Defined.

(** The two sites of ["example.com"] the other way round. *)
Lemma pick_site_any_tie_order_witness :
  pick_site [annotate "example.com" 80 (example_site 1 "other.com" 80 true);
             annotate "example.com" 80 (example_site 3 "example.com" 8001 false);
             annotate "example.com" 80 (example_site 2 "example.com" 8000 false)]
  = pick_site (annotated_sites "example.com" 80 (site_table default_and_two_world)).
Proof.
  apply pick_site_any_tie_order.
  - apply (bool_decide_unpack _). vm_compute. exact I.
  - vm_compute. lia.
  - vm_compute. apply perm_skip, perm_swap.
  - repeat constructor; unfold match_le; vm_compute; discriminate.
Defined.

(** A request for ["example.com"] on port 80 finds its site; one with a
    port of twenty digits raises what the query raises. *)
Lemma find_for_request_answers_None_when_unresolvable_witness :
  (exists found,
     find_for_request (fun host => (host, "")) example_port_value
       (Some anonymous_request) default_and_one_world
     = (Ok (found, Some (setattr_wagtail_site anonymous_request found)),
        with_site_queries 1 default_and_one_world)
     /\ (found = None <-> unresolvable "example.com" 80 (site_table default_and_one_world))
     /\ (forall s, found = Some s ->
           (get_site_for_hostname "example.com" 80 default_and_one_world).1 = Ok s))
  /\ (find_for_request (fun host => (host, "")) example_port_value
        (Some huge_port_request) default_and_one_world).1
     = Raise OverflowError.
Proof.
  split.
  - apply (find_for_request_answers_None_when_unresolvable (fun host => (host, ""))
             example_port_value anonymous_request "example.com" default_and_one_world
             eq_refl eq_refl).
    reflexivity.
  - apply (find_for_request_answers_None_when_unresolvable (fun host => (host, ""))
             example_port_value huge_port_request "example.com" default_and_one_world
             eq_refl eq_refl); reflexivity.
Defined.

(** The same request asked about a second time. *)
Lemma find_for_request_memoized_witness :
  let found := Some (example_site 2 "example.com" 8000 false) in
  let request' := setattr_wagtail_site anonymous_request found in
  let w' := with_site_queries 1 default_and_one_world in
  find_for_request (fun host => (host, "")) example_port_value (Some request') w'
  = (Ok (found, Some request'), w').
Proof.
  apply (find_for_request_memoized (fun host => (host, "")) example_port_value
           anonymous_request default_and_one_world).
  reflexivity.
Defined.

(** The natural keys of two sites of one hostname. *)
Lemma get_by_natural_key_round_trip_witness :
  (forall s, s ∈ site_table two_ports_world ->
     (get_by_natural_key (natural_key s).1 (natural_key s).2 two_ports_world).1 = Ok s)
  /\ (forall h p, (forall s, s ∈ site_table two_ports_world -> natural_key s <> (h, p)) ->
        (get_by_natural_key h p two_ports_world).1 = Raise DoesNotExist)
  /\ (forall h p, (get_by_natural_key h p two_ports_world).1 = Raise DoesNotExist
                  \/ exists s, s ∈ site_table two_ports_world
                               /\ (get_by_natural_key h p two_ports_world).1 = Ok s).
Proof.
  apply get_by_natural_key_round_trip.
  apply (bool_decide_unpack _). vm_compute. exact I.
Defined.

(** Groups of the same name on two sites. *)
Lemma SiteGroup_natural_key_round_trip_witness :
  (forall g, g ∈ example_groups ->
     SiteGroup_get_by_natural_key example_groups
       (SiteGroup_natural_key g).1 (SiteGroup_natural_key g).2 = Ok g)
  /\ (forall n k, (forall g, g ∈ example_groups -> SiteGroup_natural_key g <> (n, k)) ->
        SiteGroup_get_by_natural_key example_groups n k = Raise DoesNotExist)
  /\ (forall n k, SiteGroup_get_by_natural_key example_groups n k = Raise DoesNotExist
                  \/ exists g, g ∈ example_groups
                               /\ SiteGroup_get_by_natural_key example_groups n k = Ok g).
Proof.
  apply SiteGroup_natural_key_round_trip.
  apply (bool_decide_unpack _). vm_compute. exact I.
Defined.

(** A site without a name on port 8000. *)
Lemma root_url_and_display_name_witness :
  root_url (example_site 1 "a.example.com" 8000 false)
  = "http://" ++ Site__str__ (example_site 1 "a.example.com" 8000 false)
  /\ Site__str__ (example_site 1 "a.example.com" 8000 false) = "a.example.com:8000".
Proof.
  split; [| reflexivity].
  apply (root_url_and_display_name (example_site 1 "a.example.com" 8000 false));
    [reflexivity | reflexivity | discriminate].
Defined.

(** Three sites on two roots, nothing cached. *)
Lemma root_paths_cover_the_table_witness :
  exists l,
    (get_site_root_paths (fun _ => []) no_settings root_paths_world).1 = Ok (Current <$> l)
    /\ (forall r, r ∈ l <->
          exists s page,
            s ∈ site_table root_paths_world
            /\ page ∈ (if i18n_enabled no_settings then [] else [root_page s])
            /\ r = make_SiteRootPath s page)
    /\ (i18n_enabled no_settings = false -> length l = length (site_table root_paths_world)).
Proof.
  apply (root_paths_cover_the_table (fun _ => []) no_settings root_paths_world).
  apply cache_coherent_without_entry. reflexivity.
Defined.

(** The table emptied ten seconds after the list was computed. *)
Lemma stored_list_is_served_for_an_hour_witness :
  let later := advance 10 (with_site_table []
                 (get_site_root_paths (fun _ => []) no_settings root_paths_world).2) in
  (10 < 3600 ->
   get_site_root_paths (fun _ => []) no_settings later
   = (Ok (compute_root_paths (fun _ => []) no_settings (site_table root_paths_world)), later))
  /\ (3600 <= 10 ->
      (get_site_root_paths (fun _ => []) no_settings later).1
      = Ok (compute_root_paths (fun _ => []) no_settings [])
      /\ site_queries (get_site_root_paths (fun _ => []) no_settings later).2
         = S (site_queries later)).
Proof.
  apply (stored_list_is_served_for_an_hour (fun _ => []) no_settings root_paths_world [] 10).
  - reflexivity.
  - lia.
Defined.

(** A site that does not ask to be the default, validated against a table
    with two default sites. *)
Lemma clean_fields_outcomes_witness :
  (clean_fields (fun _ _ => Ok tt) (example_site 3 "example.com" 8000 false) None
     two_defaults_world).1
  = Raise MultipleObjectsReturned.
Proof.
  pose proof (clean_fields_outcomes (fun _ _ => Ok tt)
                (example_site 3 "example.com" 8000 false) None two_defaults_world)
    as (_ & Hok & _).
  destruct (Hok eq_refl) as (_ & _ & Hmany). apply Hmany. vm_compute. lia.
Defined.

(** A setting that names an installed model. *)
Lemma get_site_user_model_outcomes_witness :
  get_site_user_model
    {| WAGTAIL_I18N_ENABLED := None; SITE_USER_MODEL := Some "accounts.SiteUser" |}
    (fun label model =>
       if decide (label = "accounts" /\ model = "SiteUser") then Some accounts_SiteUser
       else None)
  = Ok accounts_SiteUser.
Proof.
  apply get_site_user_model_outcomes.
  exists "accounts.SiteUser", "accounts", "SiteUser". repeat split.
Defined.

(** A session that names site 7, of which the user is no member. *)
Lemma site_user_lookup_paths_witness :
  let w := with_SiteUser (Some accounts_SiteUser) (world_of []) in
  AbstractSiteUser_find_for_request no_settings (fun _ _ => None) (fun _ => [member_row])
    (fun request _ => request) stray_session_request w
  = (Raise DoesNotExist, w).
Proof.
  intros w.
  pose proof (site_user_lookup_paths no_settings (fun _ _ => None) (fun _ => [member_row])
                (fun request _ => request) stray_session_request w w accounts_SiteUser
                eq_refl) as (Hstray & _).
  apply (Hstray 7); [reflexivity | discriminate | reflexivity].
Defined.

(** The model found in the global: the registry is not asked, though it
    no longer knows the model. *)
Lemma site_user_model_is_resolved_once_witness :
  let w := with_SiteUser (Some accounts_SiteUser) (world_of []) in
  let settings :=
    {| WAGTAIL_I18N_ENABLED := None; SITE_USER_MODEL := Some "accounts.SiteUser" |} in
  AbstractSiteUser_find_for_request settings (fun _ _ => None) (fun _ => [member_row])
    (fun request _ => request) stray_session_request w
  = AbstractSiteUser_find_for_request settings (fun _ _ => Some accounts_SiteUser)
      (fun _ => [member_row]) (fun request _ => request) stray_session_request w
  /\ SiteUser (AbstractSiteUser_find_for_request settings (fun _ _ => None)
                 (fun _ => [member_row]) (fun request _ => request)
                 stray_session_request w).2 = Some accounts_SiteUser.
Proof.
  intros w settings.
  pose proof (site_user_model_is_resolved_once settings
                (fun _ _ => None) (fun _ _ => Some accounts_SiteUser)
                (fun _ => [member_row]) (fun request _ => request)
                stray_session_request w) as (_ & _ & Hsame).
  apply (Hsame accounts_SiteUser). reflexivity.
Defined.

(** An active superuser in front of backends that grant nothing. *)
Lemma superuser_bypass_witness :
  let root := {| su_site_id := 1; su_user_id := 1; su_is_active := true;
                 su_is_superuser := true |} in
  (forall perm obj, has_perm unit (fun _ _ _ => false) root perm obj = true)
  /\ (forall perms obj,
        has_perms unit (fun _ _ _ => false) root (Permissions perms) obj = Ok true)
  /\ (forall label, has_module_perms (fun _ _ => false) root label = true).
Proof.
  intros root.
  pose proof (superuser_bypass unit (fun _ _ _ => false) (fun _ _ => false) root)
    as (Hbypass & _).
  apply Hbypass; reflexivity.
Defined.

(** Two lists put together, for a member the backends grant one
    permission. *)
Lemma has_perms_is_all_of_has_perm_witness :
  let backend := fun (_ : SiteUserRow) (perm : string) (_ : option unit) =>
                   bool_decide (perm = "wagtailcore.change_page") in
  has_perms unit backend member_row
    (Permissions (["wagtailcore.change_page"] ++ ["wagtailcore.delete_page"])) None
  = Ok (true && false).
Proof.
  intros backend.
  pose proof (has_perms_is_all_of_has_perm unit backend member_row None)
    as (_ & _ & _ & _ & Happ).
  apply Happ; reflexivity.
Defined.
